(** * glsvg: the SVG document object of [glsvg/svg.py]

    A shallow embedding of the classes [SVGConfig] and [SVG] of
    [src/glsvg/svg.py].  Python attributes become record fields, methods
    become actions of a state-and-exception monad over the [SVG] object,
    and the calls that leave the module (OpenGL, [print], the rendering of
    one path) are recorded in a trace of events.  Modules of the package
    that [svg.py] imports ([svg_constants], [parser_utils], [svg_path],
    [svg_path_builder], [gradient], [svg_pattern]) are interfaces: type
    classes whose members the methods call. *)

From Stdlib Require Import ZArith Lia Floats Uint63 Ascii.
From stdpp Require Import base option list gmap strings.

Local Open Scope Z_scope.

(** ** Python values and exceptions *)

(** The values an anchor can hold: a number or a string. *)
Inductive pyval : Type :=
| PyInt (n : Z)
| PyFloat (x : float)
| PyStr (s : string).

(** [v == 'keyword'] for a string literal on the right. *)
Definition py_eq_str (v : pyval) (kw : string) : bool :=
  match v with
  | PyStr s => String.eqb s kw
  | _ => false
  end.

(** Subclasses of [Exception] that the module can see. *)
Inductive exn : Type :=
| ValueError (msg : string)
| KeyError (key : string)
| AttributeError (attr : string)
| OtherError (msg : string).

Definition result (A : Type) : Type := exn + A.

#[export] Instance result_ret : MRet result := λ A a, inr a.

#[export] Instance result_bind : MBind result := λ A B k r,
  match r with
  | inl ex => inl ex
  | inr a => k a
  end.

(** ** String methods used by the module *)

(** [sub in s]. *)
Fixpoint str_contains (sub s : string) : bool :=
  String.prefix sub s ||
  match s with
  | EmptyString => false
  | String _ s' => str_contains sub s'
  end.

(** [s.replace(old, new)] for a non-empty [old]: occurrences are replaced
    from left to right and do not overlap.  [skip] counts the characters
    of the occurrence just replaced that are still to be dropped. *)
Fixpoint str_replace_from (old new : string) (skip : nat) (s : string) : string :=
  match s with
  | EmptyString => EmptyString
  | String c s' =>
      match skip with
      | S k => str_replace_from old new k s'
      | O =>
          if String.prefix old s
          then new +:+ str_replace_from old new (String.length old - 1) s'
          else String c (str_replace_from old new 0 s')
      end
  end.

Definition str_replace (old new s : string) : string :=
  str_replace_from old new 0 s.

(** [s.endswith(suffix)]. *)
Definition str_endswith (s suffix : string) : bool :=
  String.prefix (String.rev suffix) (String.rev s).

(** Truth value of a string in a condition. *)
Definition str_truthy (s : string) : bool :=
  match s with
  | EmptyString => false
  | _ => true
  end.

(** The characters of a decimal numeral: digits, sign, point, exponent. *)
Definition is_numeral_char (c : ascii) : bool :=
  let n := nat_of_ascii c in
  ((48 <=? n)%nat && (n <=? 57)%nat)
  || bool_decide (c = "."%char) || bool_decide (c = "+"%char)
  || bool_decide (c = "-"%char) || bool_decide (c = "e"%char)
  || bool_decide (c = "E"%char).

Fixpoint numeral_text (s : string) : bool :=
  match s with
  | EmptyString => true
  | String c s' => is_numeral_char c && numeral_text s'
  end.

(** ** The document tree handed over by ElementTree *)

#[warning="-register-all"]
Inductive Element : Type :=
  Elem { tag : string; attrib : gmap string string; children : list Element }.

(** [e.get(key)]: [None] when the attribute is absent. *)
Definition Element_get (e : Element) (key : string) : option string :=
  attrib e !! key.

(** [e.get(key, default)]. *)
Definition Element_get_default (e : Element) (key dflt : string) : string :=
  default dflt (attrib e !! key).

(** ** OpenGL calls issued by the module *)

Inductive GLenum : Type :=
| GL_BLEND
| GL_SRC_ALPHA
| GL_ONE_MINUS_SRC_ALPHA
| GL_STENCIL_BUFFER_BIT.

Inductive GLCall : Type :=
| glEnable (cap : GLenum)
| glBlendFunc (sfactor dfactor : GLenum)
| glStencilMask (mask : Z)
| glClear (mask : GLenum).

(** ** Interfaces of the modules imported by [svg.py] *)

(** [svg_constants]. *)
Class SvgConstants : Type := {
  BEZIER_POINTS : Z;
  CIRCLE_POINTS : Z;
  TOLERANCE : float
}.

(** [parser_utils]: both functions may raise. *)
Class ParserUtils : Type := {
  parse_float : string → result float;
  parse_list : string → result (list string)
}.

(** The classes of [svg_path_builder], [svg_path], [gradient] and
    [svg_pattern], with the attributes [svg.py] reads from them. *)
Class Shapes : Type := {
  SvgElementScope : Type;
  SVGPath : Type;
  Gradient : Type;
  Pattern : Type;
  path_id : SvgElementScope → string;
  is_pattern : SVGPath → bool;
  is_pattern_part : SVGPath → bool
}.

(** ** SVGConfig *)

Record SVGConfig : Type := mkSVGConfig {
  stencil_bits : Z;
  has_framebuffer_objects : bool;
  allow_stencil : bool;
  bezier_points : Z;
  circle_points : Z;
  tolerance : float
}.

Section Config.
Context `{SvgConstants}.

(** [SVGConfig.__init__]; [gl_stencil_bits] is what
    [glGetInteger(GL_STENCIL_BITS)] answers in the current context. *)
Definition SVGConfig_init (gl_stencil_bits : Z) : SVGConfig :=
  {| stencil_bits := gl_stencil_bits;
     has_framebuffer_objects := true;
     allow_stencil := bool_decide (0 < gl_stencil_bits);
     bezier_points := BEZIER_POINTS;
     circle_points := CIRCLE_POINTS;
     tolerance := TOLERANCE |}.

(** [SVGConfig.super_detailed]: the body never reads or assigns [self];
    it builds a fresh config and scales three of its fields.  The pair
    returned is ([self] after the call, the value returned). *)
Definition super_detailed (self : SVGConfig) (gl_stencil_bits : Z)
  : SVGConfig * SVGConfig :=
  let cfg := SVGConfig_init gl_stencil_bits in
  let cfg := {| stencil_bits := stencil_bits cfg;
                has_framebuffer_objects := has_framebuffer_objects cfg;
                allow_stencil := allow_stencil cfg;
                bezier_points := bezier_points cfg * 10;
                circle_points := circle_points cfg;
                tolerance := tolerance cfg |} in
  let cfg := {| stencil_bits := stencil_bits cfg;
                has_framebuffer_objects := has_framebuffer_objects cfg;
                allow_stencil := allow_stencil cfg;
                bezier_points := bezier_points cfg;
                circle_points := circle_points cfg * 10;
                tolerance := tolerance cfg |} in
  let cfg := {| stencil_bits := stencil_bits cfg;
                has_framebuffer_objects := has_framebuffer_objects cfg;
                allow_stencil := allow_stencil cfg;
                bezier_points := bezier_points cfg;
                circle_points := circle_points cfg;
                tolerance := (tolerance cfg / 100)%float |} in
  (self, cfg).
End Config.

(** ** The SVG object, its monad and its trace *)

Section Document.
Context `{Shapes}.

(** What leaves the module while a method runs. *)
Inductive Event : Type :=
| EvGL (call : GLCall)
| EvPrint (text : string) (subject : option Element)
| EvPathRender (path : SVGPath)
| EvPatternRender (pattern : Pattern).

(** The attributes of an [SVG] instance.  An attribute that [__init__]
    does not assign before it starts loading the document is [None]
    until it is assigned; reading it while it is [None] raises
    [AttributeError].  The counters [n_tris] and [n_lines], the parsed
    [tree] and the display list, which no method below reads, are left
    out; the root of the tree is an argument of the methods that walk it. *)
Record SVG : Type := mkSVG {
  config : SVGConfig;
  _stencil_mask : Z;
  path_lookup : gmap string SVGPath;
  _paths : list SVGPath;
  patterns : gmap (option string) Pattern;
  filename : string;
  _gradients : gmap (option string) Gradient;
  _anchor_x : option pyval;
  _anchor_y : option pyval;
  _a_x : option pyval;
  _a_y : option pyval;
  width : option float;
  height : option float;
  opacity : option float
}.

(** Attribute assignments, [self.attr = v]. *)
Definition assign_stencil_mask (v : Z) (s : SVG) : SVG :=
  mkSVG (config s) v (path_lookup s) (_paths s) (patterns s) (filename s)
        (_gradients s) (_anchor_x s) (_anchor_y s) (_a_x s) (_a_y s)
        (width s) (height s) (opacity s).
Definition assign_path_lookup (v : gmap string SVGPath) (s : SVG) : SVG :=
  mkSVG (config s) (_stencil_mask s) v (_paths s) (patterns s) (filename s)
        (_gradients s) (_anchor_x s) (_anchor_y s) (_a_x s) (_a_y s)
        (width s) (height s) (opacity s).
Definition assign_paths (v : list SVGPath) (s : SVG) : SVG :=
  mkSVG (config s) (_stencil_mask s) (path_lookup s) v (patterns s)
        (filename s) (_gradients s) (_anchor_x s) (_anchor_y s) (_a_x s)
        (_a_y s) (width s) (height s) (opacity s).
Definition assign_patterns (v : gmap (option string) Pattern) (s : SVG) : SVG :=
  mkSVG (config s) (_stencil_mask s) (path_lookup s) (_paths s) v
        (filename s) (_gradients s) (_anchor_x s) (_anchor_y s) (_a_x s)
        (_a_y s) (width s) (height s) (opacity s).
Definition assign_gradients (v : gmap (option string) Gradient) (s : SVG) : SVG :=
  mkSVG (config s) (_stencil_mask s) (path_lookup s) (_paths s) (patterns s)
        (filename s) v (_anchor_x s) (_anchor_y s) (_a_x s) (_a_y s)
        (width s) (height s) (opacity s).
Definition assign_anchor_x (v : pyval) (s : SVG) : SVG :=
  mkSVG (config s) (_stencil_mask s) (path_lookup s) (_paths s) (patterns s)
        (filename s) (_gradients s) (Some v) (_anchor_y s) (_a_x s) (_a_y s)
        (width s) (height s) (opacity s).
Definition assign_anchor_y (v : pyval) (s : SVG) : SVG :=
  mkSVG (config s) (_stencil_mask s) (path_lookup s) (_paths s) (patterns s)
        (filename s) (_gradients s) (_anchor_x s) (Some v) (_a_x s) (_a_y s)
        (width s) (height s) (opacity s).
Definition assign_a_x (v : pyval) (s : SVG) : SVG :=
  mkSVG (config s) (_stencil_mask s) (path_lookup s) (_paths s) (patterns s)
        (filename s) (_gradients s) (_anchor_x s) (_anchor_y s) (Some v)
        (_a_y s) (width s) (height s) (opacity s).
Definition assign_a_y (v : pyval) (s : SVG) : SVG :=
  mkSVG (config s) (_stencil_mask s) (path_lookup s) (_paths s) (patterns s)
        (filename s) (_gradients s) (_anchor_x s) (_anchor_y s) (_a_x s)
        (Some v) (width s) (height s) (opacity s).
Definition assign_width (v : float) (s : SVG) : SVG :=
  mkSVG (config s) (_stencil_mask s) (path_lookup s) (_paths s) (patterns s)
        (filename s) (_gradients s) (_anchor_x s) (_anchor_y s) (_a_x s)
        (_a_y s) (Some v) (height s) (opacity s).
Definition assign_height (v : float) (s : SVG) : SVG :=
  mkSVG (config s) (_stencil_mask s) (path_lookup s) (_paths s) (patterns s)
        (filename s) (_gradients s) (_anchor_x s) (_anchor_y s) (_a_x s)
        (_a_y s) (width s) (Some v) (opacity s).
Definition assign_opacity (v : float) (s : SVG) : SVG :=
  mkSVG (config s) (_stencil_mask s) (path_lookup s) (_paths s) (patterns s)
        (filename s) (_gradients s) (_anchor_x s) (_anchor_y s) (_a_x s)
        (_a_y s) (width s) (height s) (Some v).

(** A method: from the object to its outcome (an exception or a value),
    the object as the method left it, and the events it emitted.  An
    exception keeps the assignments made before it was raised. *)
Definition M (A : Type) : Type := SVG → result A * SVG * list Event.

#[export] Instance M_ret : MRet M := λ A a s, (inr a, s, []).

#[export] Instance M_bind : MBind M := λ A B k m s,
  match m s with
  | (inl ex, s1, t1) => (inl ex, s1, t1)
  | (inr a, s1, t1) =>
      match k a s1 with
      | (r, s2, t2) => (r, s2, t1 ++ t2)
      end
  end.

Definition get_self : M SVG := λ s, (inr s, s, []).
Definition gets {A} (f : SVG → A) : M A := λ s, (inr (f s), s, []).
Definition modify (f : SVG → SVG) : M unit := λ s, (inr tt, f s, []).
Definition raise {A} (ex : exn) : M A := λ s, (inl ex, s, []).
Definition emit (ev : Event) : M unit := λ s, (inr tt, s, [ev]).
Definition lift {A} (r : result A) : M A := λ s, (r, s, []).

(** Reading an attribute that may not have been assigned yet. *)
Definition getattr {A} (f : SVG → option A) (name : string) : M A := λ s,
  match f s with
  | Some a => (inr a, s, [])
  | None => (inl (AttributeError name), s, [])
  end.

(** [try: body / except Exception as ex: handler ex]. *)
Definition try_except {A} (body : M A) (handler : exn → M A) : M A := λ s,
  match body s with
  | (inl ex, s1, t1) =>
      match handler ex s1 with
      | (r, s2, t2) => (r, s2, t1 ++ t2)
      end
  | ok => ok
  end.

(** [for x in l: body x]. *)
Definition for_ {A} (l : list A) (body : A → M unit) : M unit :=
  (fix loop (l : list A) : M unit :=
     match l with
     | [] => mret tt
     | x :: l' => body x ;; loop l'
     end) l.

Definition gl (call : GLCall) : M unit := emit (EvGL call).

(** *** Stencil masks *)

(** [SVG._next_stencil_mask]. *)
Definition _next_stencil_mask : M Z :=
  modify (λ self, assign_stencil_mask (_stencil_mask self + 1) self) ;;
  self ← get_self ;
  (if bool_decide (2 ^ stencil_bits (config self) - 1 < _stencil_mask self)
   then
     modify (assign_stencil_mask 1) ;;
     gl (glStencilMask 255) ;;
     gl (glClear GL_STENCIL_BUFFER_BIT)
   else mret tt) ;;
  gets _stencil_mask.

(** [n] consecutive calls, collecting the masks handed out. *)
Fixpoint issue_masks (n : nat) : M (list Z) :=
  match n with
  | O => mret []
  | S k =>
      m ← _next_stencil_mask ;
      ms ← issue_masks k ;
      mret (m :: ms)
  end.

(** The full-buffer clears of the stencil buffer in a trace. *)
Definition is_stencil_clear (ev : Event) : bool :=
  match ev with
  | EvGL (glClear GL_STENCIL_BUFFER_BIT) => true
  | _ => false
  end.

Definition stencil_clears (tr : list Event) : nat :=
  length (filter is_stencil_clear tr).

(** [SVG.is_stencil_enabled]. *)
Definition is_stencil_enabled : M bool :=
  gets (λ self, allow_stencil (config self)).

Definition _clear_stencils : M unit :=
  gl (glStencilMask 255) ;;
  gl (glClear GL_STENCIL_BUFFER_BIT).

(** *** Path lookup *)

(** [SVG.get_path_ids]: the keys of the lookup table. *)
Definition get_path_ids : M (list string) :=
  gets (λ self, (map_to_list (path_lookup self)).*1).

(** [SVG.get_path_by_id]: indexing a dict raises [KeyError] on a key it
    does not hold. *)
Definition get_path_by_id (id : string) : M SVGPath :=
  self ← get_self ;
  match path_lookup self !! id with
  | Some path => mret path
  | None => raise (KeyError id)
  end.

(** *** Anchors *)

(** [SVG._get_anchor_x] and [SVG._get_anchor_y], the getters of the
    properties [anchor_x] and [anchor_y]. *)
Definition _get_anchor_x : M pyval := getattr _anchor_x "_anchor_x".
Definition _get_anchor_y : M pyval := getattr _anchor_y "_anchor_y".

(** [SVG._set_anchor_x]. *)
Definition _set_anchor_x (anchor_x : pyval) : M unit :=
  modify (assign_anchor_x anchor_x) ;;
  ax ← getattr _anchor_x "_anchor_x" ;
  if py_eq_str ax "left" then modify (assign_a_x (PyInt 0))
  else if py_eq_str ax "center" then
    w ← getattr width "width" ;
    modify (assign_a_x (PyFloat (w * 0.5)%float))
  else if py_eq_str ax "right" then
    w ← getattr width "width" ;
    modify (assign_a_x (PyFloat w))
  else
    v ← getattr _anchor_x "_anchor_x" ;
    modify (assign_a_x v).

(** [SVG._set_anchor_y]; the last branch reads the property [anchor_y],
    that is, it calls the getter. *)
Definition _set_anchor_y (anchor_y : pyval) : M unit :=
  modify (assign_anchor_y anchor_y) ;;
  ay ← getattr _anchor_y "_anchor_y" ;
  if py_eq_str ay "bottom" then modify (assign_a_y (PyInt 0))
  else if py_eq_str ay "center" then
    h ← getattr height "height" ;
    modify (assign_a_y (PyFloat (h * 0.5)%float))
  else if py_eq_str ay "top" then
    h ← getattr height "height" ;
    modify (assign_a_y (PyFloat h))
  else
    v ← _get_anchor_y ;
    modify (assign_a_y v).

(** *** Rendering *)

(** Modelled from the spec: [SVGPath.render] is defined in [svg_path.py],
    which is not part of the sources at hand; the spec has it push the
    path's transform and draw its fill polygons on the drawing surface.
    One call is recorded as one event carrying the path. *)
Definition SVGPath_render (path : SVGPath) : M unit :=
  emit (EvPathRender path).

(** Modelled from the spec: [Pattern.render] is defined in
    [svg_pattern.py], which is not part of the sources at hand; the spec
    has it render the tile of the pattern into a reusable target.  One
    call is recorded as one event carrying the pattern. *)
Definition Pattern_render (pattern : Pattern) : M unit :=
  emit (EvPatternRender pattern).

(** [SVG.prerender_patterns]; the patterns come in the order of the
    dict's values. *)
Definition prerender_patterns : M unit :=
  gl (glEnable GL_BLEND) ;;
  gl (glBlendFunc GL_SRC_ALPHA GL_ONE_MINUS_SRC_ALPHA) ;;
  enabled ← is_stencil_enabled ;
  (if (enabled : bool)
   then gl (glStencilMask 255) ;; gl (glClear GL_STENCIL_BUFFER_BIT)
   else mret tt) ;;
  pats ← gets (λ self, (map_to_list (patterns self)).*2) ;
  for_ pats Pattern_render.

(** The test of the main pass: [not svg_path.is_pattern and not
    svg_path.is_pattern_part]. *)
Definition in_main_pass (svg_path : SVGPath) : bool :=
  negb (is_pattern svg_path) && negb (is_pattern_part svg_path).

(** The paths whose [render] was called, in the order of the calls. *)
Definition rendered_paths (tr : list Event) : list SVGPath :=
  omap (λ ev, match ev with EvPathRender p => Some p | _ => None end) tr.

(** [SVG.render]. *)
Definition render : M unit :=
  gl (glEnable GL_BLEND) ;;
  gl (glBlendFunc GL_SRC_ALPHA GL_ONE_MINUS_SRC_ALPHA) ;;
  enabled ← is_stencil_enabled ;
  (if (enabled : bool) then _clear_stencils else mret tt) ;;
  paths ← gets _paths ;
  for_ paths (λ svg_path,
    if negb (is_pattern svg_path) && negb (is_pattern_part svg_path)
    then SVGPath_render svg_path
    else mret tt).

(** *** Parsing the document *)

(** The constructors called by [_parse_element].  [SvgElementScope] is
    not given the document; the others receive [self] and are methods of
    it as far as this module can tell. *)
Class Builders : Type := {
  SvgElementScope_new : Element → option SvgElementScope → result SvgElementScope;
  SVGPath_new : SvgElementScope → Element → M SVGPath;
  LinearGradient_new : Element → M Gradient;
  RadialGradient_new : Element → M Gradient;
  Pattern_new : Element → M Pattern
}.

Context `{ParserUtils} `{Builders}.

(** [SVG._warn]. *)
Definition _warn (message : string) : M unit :=
  fname ← gets filename ;
  emit (EvPrint ("Warning: SVG Parser (" +:+ fname +:+ ") - " +:+ message) None).

(** [SVG._is_path_tag]. *)
Definition _is_path_tag (e : Element) : bool :=
  str_endswith (tag e) "path"
  || str_endswith (tag e) "rect"
  || str_endswith (tag e) "polyline" || str_endswith (tag e) "polygon"
  || str_endswith (tag e) "line"
  || str_endswith (tag e) "circle" || str_endswith (tag e) "ellipse".

(** The handler of both [try] statements: print, then re-raise. *)
Definition log_and_reraise (e : Element) (ex : exn) : M unit :=
  emit (EvPrint "Exception while parsing element" (Some e)) ;;
  raise ex.

(** [SVG._parse_element]. *)
Fixpoint _parse_element (e : Element) (parent_scope : option SvgElementScope)
  {struct e} : M unit :=
  scope ← lift (SvgElementScope_new e parent_scope) ;
  (if _is_path_tag e then
     path ← SVGPath_new scope e ;
     modify (λ self, assign_paths (_paths self ++ [path]) self) ;;
     modify (λ self,
       assign_path_lookup (<[path_id scope := path]> (path_lookup self)) self)
   else if str_endswith (tag e) "text" then
     _warn "Text tag not supported"
   else if str_endswith (tag e) "linearGradient" then
     g ← LinearGradient_new e ;
     modify (λ self,
       assign_gradients (<[Element_get e "id" := g]> (_gradients self)) self)
   else if str_endswith (tag e) "radialGradient" then
     g ← RadialGradient_new e ;
     modify (λ self,
       assign_gradients (<[Element_get e "id" := g]> (_gradients self)) self)
   else if str_endswith (tag e) "pattern" then
     p ← Pattern_new e ;
     modify (λ self,
       assign_patterns (<[Element_get e "id" := p]> (patterns self)) self)
   else mret tt) ;;
  for_ (children e) (λ c,
    try_except (_parse_element c (Some scope)) (log_and_reraise c)).

(** The body of both loops over child elements:
    [try: self._parse_element(c, scope) / except: print ...; raise]. *)
Definition guarded_parse (scope : option SvgElementScope) (c : Element)
  : M unit :=
  try_except (_parse_element c scope) (log_and_reraise c).

(** [x, y, w, h = (parse_float(x) for x in l)]: the generator is consumed
    one item at a time, so a string is parsed only when the unpacking
    asks for it; a fifth item is asked for to find out that there are too
    many. *)
Definition unpack4_floats (l : list string)
  : result (float * float * float * float) :=
  match l with
  | [] => inl (ValueError "need more than 0 values to unpack")
  | [a] =>
      _ ← parse_float a ;
      inl (ValueError "need more than 1 value to unpack")
  | [a; b] =>
      _ ← parse_float a ; _ ← parse_float b ;
      inl (ValueError "need more than 2 values to unpack")
  | [a; b; c] =>
      _ ← parse_float a ; _ ← parse_float b ; _ ← parse_float c ;
      inl (ValueError "need more than 3 values to unpack")
  | a :: b :: c :: d :: rest =>
      x ← parse_float a ; y ← parse_float b ;
      w ← parse_float c ; h ← parse_float d ;
      match rest with
      | [] => inr (x, y, w, h)
      | e :: _ =>
          _ ← parse_float e ;
          inl (ValueError "too many values to unpack")
      end
  end.

(** [SVG._parse_doc]; [root] is [self.tree._root]. *)
Definition _parse_doc (root : Element) : M unit :=
  modify (assign_paths []) ;;
  let wm := Element_get_default root "width" "0" in
  let hm := Element_get_default root "height" "0" in
  let wm := if str_contains "cm" wm then str_replace "cm" "0" wm else wm in
  let hm := if str_contains "cm" hm then str_replace "cm" "0" hm else hm in
  w ← lift (parse_float wm) ;
  modify (assign_width w) ;;
  h ← lift (parse_float hm) ;
  modify (assign_height h) ;;
  (match Element_get root "viewBox" with
   | Some vb =>
       if str_truthy vb then
         items ← lift (parse_list vb) ;
         '(x, y, w, h) ← lift (unpack4_floats items) ;
         modify (assign_height h) ;;
         modify (assign_width w)
       else mret tt
   | None => mret tt
   end) ;;
  modify (assign_opacity 1.0%float) ;;
  for_ (children root) (guarded_parse None).

(** The width and height strings as [_parse_doc] hands them to
    [parse_float]. *)
Definition dimension_text (root : Element) (key : string) : string :=
  let m := Element_get_default root key "0" in
  if str_contains "cm" m then str_replace "cm" "0" m else m.

(** A method that leaves the attributes [width] and [height] as it found
    them, whatever its outcome. *)
Definition keeps_dimensions {A} (m : M A) : Prop :=
  ∀ s r s' t, m s = (r, s', t) → width s' = width s ∧ height s' = height s.

(** The constructors of the other modules do not assign the document's
    [width] and [height]. *)
Definition builders_keep_dimensions : Prop :=
  (∀ scope e, keeps_dimensions (SVGPath_new scope e))
  ∧ (∀ e, keeps_dimensions (LinearGradient_new e))
  ∧ (∀ e, keeps_dimensions (RadialGradient_new e))
  ∧ (∀ e, keeps_dimensions (Pattern_new e)).

(** [SVG._generate_disp_list]; [root] is the root of the tree that
    ElementTree parsed from the file.  The display list records the calls
    that [render] makes. *)
Definition _generate_disp_list (root : Element) : M unit :=
  _parse_doc root ;;
  prerender_patterns ;;
  render.

Context `{SvgConstants}.

(** [SVG.__init__], run on the tree read from [fname]. *)
Definition SVG_init (fname : string) (anchor_x anchor_y : pyval)
    (cfg : option SVGConfig) (gl_stencil_bits : Z) (root : Element)
  : result unit * SVG * list Event :=
  let self :=
    {| config := match cfg with
                 | None => SVGConfig_init gl_stencil_bits
                 | Some c => c
                 end;
       _stencil_mask := 0;
       path_lookup := ∅;
       _paths := [];
       patterns := ∅;
       filename := fname;
       _gradients := ∅;
       _anchor_x := None;
       _anchor_y := None;
       _a_x := None;
       _a_y := None;
       width := None;
       height := None;
       opacity := None |} in
  (_generate_disp_list root ;;
   modify (assign_anchor_x anchor_x) ;;
   modify (assign_anchor_y anchor_y)) self.

(** *** Frames and what the loops emit *)

(** A method that leaves the value that [f] reads off the object as it
    found it, whatever its outcome. *)
Definition keeps {A B} (f : SVG → B) (m : M A) : Prop :=
  ∀ s r s' t, m s = (r, s', t) → f s' = f s.

(** The constructors of the other modules do not change what [f] reads. *)
Definition builders_keep {B} (f : SVG → B) : Prop :=
  (∀ scope e, keeps f (SVGPath_new scope e))
  ∧ (∀ e, keeps f (LinearGradient_new e))
  ∧ (∀ e, keeps f (RadialGradient_new e))
  ∧ (∀ e, keeps f (Pattern_new e)).

(** [f] reads none of the attributes that [_parse_element] assigns. *)
Definition apart_from_registration {B} (f : SVG → B) : Prop :=
  ∀ s,
    (∀ v, f (assign_paths v s) = f s)
    ∧ (∀ v, f (assign_path_lookup v s) = f s)
    ∧ (∀ v, f (assign_gradients v s) = f s)
    ∧ (∀ v, f (assign_patterns v s) = f s).

(** [f] reads none of the attributes that [_parse_doc] assigns. *)
Definition apart_from_parsing {B} (f : SVG → B) : Prop :=
  apart_from_registration f
  ∧ ∀ s,
      (∀ v, f (assign_width v s) = f s)
      ∧ (∀ v, f (assign_height v s) = f s)
      ∧ (∀ v, f (assign_opacity v s) = f s).

(** The patterns whose [render] was called, in the order of the calls. *)
Definition rendered_patterns (tr : list Event) : list Pattern :=
  omap (λ ev, match ev with EvPatternRender p => Some p | _ => None end) tr.

(** What [_parse_element] does with the element itself, before it turns
    to the children: the chain of tests on the tag. *)
Definition register_element (e : Element) (scope : SvgElementScope) : M unit :=
  if _is_path_tag e then
    path ← SVGPath_new scope e ;
    modify (λ self, assign_paths (_paths self ++ [path]) self) ;;
    modify (λ self,
      assign_path_lookup (<[path_id scope := path]> (path_lookup self)) self)
  else if str_endswith (tag e) "text" then
    _warn "Text tag not supported"
  else if str_endswith (tag e) "linearGradient" then
    g ← LinearGradient_new e ;
    modify (λ self,
      assign_gradients (<[Element_get e "id" := g]> (_gradients self)) self)
  else if str_endswith (tag e) "radialGradient" then
    g ← RadialGradient_new e ;
    modify (λ self,
      assign_gradients (<[Element_get e "id" := g]> (_gradients self)) self)
  else if str_endswith (tag e) "pattern" then
    p ← Pattern_new e ;
    modify (λ self,
      assign_patterns (<[Element_get e "id" := p]> (patterns self)) self)
  else mret tt.

End Document.

(** ** Drawing *)

(** The numbers that [draw] is given: Python ints and floats. *)
Inductive pynum : Type :=
| NumInt (n : Z)
| NumFloat (x : float).

Definition num_val (n : pynum) : pyval :=
  match n with
  | NumInt n => PyInt n
  | NumFloat x => PyFloat x
  end.

(** The [scale] argument of [draw]: a number, or a tuple of two. *)
Inductive scale_arg : Type :=
| ScaleNum (s : pynum)
| ScalePair (sx sy : pynum).

(** The calls of [draw].  [EnterTransform] and [ExitTransform] are the two
    ends of the [with CurrentTransform()] block. *)
Inductive DrawCall : Type :=
| EnterTransform
| ExitTransform
| glTranslatef (x y z : pyval)
| glRotatef (angle x y z : pyval)
| glScalef (x y : scale_arg) (z : pyval)
| CallDisplayList.

(** The exceptions that [draw] itself can meet. *)
Inductive draw_exn : Type :=
| DrawAttributeError (attr : string)
| DrawTypeError (msg : string).

(** [draw] does not assign any attribute: it yields an outcome and the
    calls it made. *)
Definition Draw (A : Type) : Type := (draw_exn + A) * list DrawCall.

#[export] Instance Draw_ret : MRet Draw := λ A a, (inr a, []).

#[export] Instance Draw_bind : MBind Draw := λ A B k m,
  match m with
  | (inl ex, t1) => (inl ex, t1)
  | (inr a, t1) =>
      match k a with
      | (r, t2) => (r, t1 ++ t2)
      end
  end.

Definition draw_call (c : DrawCall) : Draw unit := (inr tt, [c]).
Definition draw_raise {A} (ex : draw_exn) : Draw A := (inl ex, []).

(** [try: body / except TypeError: handler]. *)
Definition draw_except_TypeError {A} (body handler : Draw A) : Draw A :=
  match body with
  | (inl (DrawTypeError _), t1) =>
      match handler with
      | (r, t2) => (r, t1 ++ t2)
      end
  | other => other
  end.

(** Modelled from the spec: [CurrentTransform] is defined in [glutils.py],
    which is not part of the sources at hand; the spec has [draw] wrap the
    replay in a transform stack.  The block is entered, its body runs, and
    the block is left whether the body raised or not; an exception of the
    body goes on to the caller. *)
Definition with_CurrentTransform {A} (body : Draw A) : Draw A :=
  match body with
  | (r, t) => (r, EnterTransform :: t ++ [ExitTransform])
  end.

(** Truth value of a number or string in a condition. *)
Definition py_truthy (v : pyval) : bool :=
  match v with
  | PyInt n => negb (n =? 0)
  | PyFloat x => negb (PrimFloat.eqb x 0)
  | PyStr s => str_truthy s
  end.

(** Unary minus. *)
Definition py_neg (v : pyval) : Draw pyval :=
  match v with
  | PyInt n => mret (PyInt (- n))
  | PyFloat x => mret (PyFloat (- x)%float)
  | PyStr _ => draw_raise (DrawTypeError "bad operand type for unary -: 'str'")
  end.

(** [scale != 1]. *)
Definition scale_is_not_1 (scale : scale_arg) : bool :=
  match scale with
  | ScaleNum (NumInt n) => negb (n =? 1)
  | ScaleNum (NumFloat x) => negb (PrimFloat.eqb x 1)
  | ScalePair _ _ => true
  end.

(** [scale[i]]: a number cannot be indexed. *)
Definition scale_item (scale : scale_arg) (i : nat) : Draw scale_arg :=
  match scale with
  | ScaleNum (NumInt _) =>
      draw_raise (DrawTypeError "'int' object has no attribute '__getitem__'")
  | ScaleNum (NumFloat _) =>
      draw_raise (DrawTypeError "'float' object has no attribute '__getitem__'")
  | ScalePair sx sy =>
      match i with
      | O => mret (ScaleNum sx)
      | _ => mret (ScaleNum sy)
      end
  end.

Section Drawing.
Context `{Shapes}.

(** Reading an attribute of [self] inside [draw]. *)
Definition draw_getattr {A} (self : SVG) (f : SVG → option A) (name : string)
  : Draw A :=
  match f self with
  | Some a => mret a
  | None => draw_raise (DrawAttributeError name)
  end.

(** [SVG.draw].  [self.disp_list] is assigned while the object is built,
    before its first render, so the call at the end finds it. *)
Definition draw (self : SVG) (x y z angle : pynum) (scale : scale_arg)
  : Draw unit :=
  with_CurrentTransform (
    draw_call (glTranslatef (num_val x) (num_val y) (num_val z)) ;;
    (if py_truthy (num_val angle)
     then draw_call (glRotatef (num_val angle) (PyInt 0) (PyInt 0) (PyInt 1))
     else mret tt) ;;
    (if scale_is_not_1 scale then
       draw_except_TypeError
         (sx ← scale_item scale 0 ;
          sy ← scale_item scale 1 ;
          draw_call (glScalef sx sy (PyInt 1)))
         (draw_call (glScalef scale scale (PyInt 1)))
     else mret tt) ;;
    a_x ← draw_getattr self _a_x "_a_x" ;
    anchored ← (if py_truthy a_x then mret true
                else a_y ← draw_getattr self _a_y "_a_y" ;
                     mret (py_truthy a_y)) ;
    (if (anchored : bool) then
       a_x ← draw_getattr self _a_x "_a_x" ;
       nx ← py_neg a_x ;
       a_y ← draw_getattr self _a_y "_a_y" ;
       ny ← py_neg a_y ;
       draw_call (glTranslatef nx ny (PyInt 0))
     else mret tt) ;;
    draw_call CallDisplayList).

End Drawing.

(** ** A small instance of the interfaces

    Enough of the imported modules to run the methods on concrete
    documents: unsigned decimal numerals for [parse_float], blank- or
    comma-separated items for [parse_list], and shapes that carry their id
    and their two pattern flags. *)

Module Sample.

Definition digit_value (c : ascii) : option Z :=
  let n := Z.of_nat (nat_of_ascii c) - 48 in
  if bool_decide (0 ≤ n ≤ 9) then Some n else None.

Fixpoint digits_value (acc : Z) (s : string) : option Z :=
  match s with
  | EmptyString => Some acc
  | String c s' =>
      match digit_value c with
      | Some d => digits_value (10 * acc + d) s'
      | None => None
      end
  end.

Definition sample_parse_float (s : string) : result float :=
  match s with
  | EmptyString => inl (ValueError "could not convert string to float")
  | _ =>
      match digits_value 0 s with
      | Some n => inr (PrimFloat.of_uint63 (Uint63.of_Z n))
      | None => inl (ValueError "could not convert string to float")
      end
  end.

Definition is_separator (c : ascii) : bool :=
  bool_decide (c = " "%char) || bool_decide (c = ","%char).

Fixpoint tokens (cur : string) (s : string) : list string :=
  match s with
  | EmptyString => if str_truthy cur then [cur] else []
  | String c s' =>
      if is_separator c
      then (if str_truthy cur then [cur] else []) ++ tokens EmptyString s'
      else tokens (cur +:+ String c EmptyString) s'
  end.

Definition sample_parse_list (s : string) : result (list string) :=
  inr (tokens EmptyString s).

#[export] Instance constants : SvgConstants :=
  {| BEZIER_POINTS := 10; CIRCLE_POINTS := 10; TOLERANCE := 0.125%float |}.

#[export] Instance parser : ParserUtils :=
  {| parse_float := sample_parse_float; parse_list := sample_parse_list |}.

Record shape : Type := mkShape {
  shape_id : string;
  shape_is_pattern : bool;
  shape_is_pattern_part : bool
}.

#[export] Instance shapes : Shapes :=
  {| SvgElementScope := string;
     SVGPath := shape;
     Gradient := string;
     Pattern := string;
     path_id := λ scope, scope;
     is_pattern := shape_is_pattern;
     is_pattern_part := shape_is_pattern_part |}.

(** A shape is built from an element when its [width] attribute, if any,
    is a number; the pattern flags are read from two attributes. *)
Definition sample_path (scope : string) (e : Element) : M SVGPath :=
  _ ← lift (parse_float (Element_get_default e "width" "0")) ;
  mret (mkShape scope
          (bool_decide (Element_get e "pattern" = Some "yes"))
          (bool_decide (Element_get e "part" = Some "yes"))).

#[export] Instance builders : Builders :=
  {| SvgElementScope_new := λ e _, inr (Element_get_default e "id" "");
     SVGPath_new := sample_path;
     LinearGradient_new := λ e, mret (tag e);
     RadialGradient_new := λ e, mret (tag e);
     Pattern_new := λ e, mret (tag e) |}.

Definition elem (t : string) (attrs : list (string * string))
    (cs : list Element) : Element :=
  Elem t (list_to_map attrs) cs.

(** An object as [__init__] leaves it for an empty 100 by 50 document. *)
Definition blank (bits : Z) : SVG :=
  {| config := SVGConfig_init bits;
     _stencil_mask := 0;
     path_lookup := ∅;
     _paths := [];
     patterns := ∅;
     filename := "sample.svg";
     _gradients := ∅;
     _anchor_x := Some (PyInt 0);
     _anchor_y := Some (PyInt 0);
     _a_x := None;
     _a_y := None;
     width := Some 100%float;
     height := Some 50%float;
     opacity := Some 1%float |}.

(** *** Sample documents *)

(** A root with a [viewBox] next to literal dimensions. *)
Definition viewbox_doc : Element :=
  elem "svg" [("width", "10cm"); ("height", "7"); ("viewBox", "0 0 100 50")]
    [elem "rect" [("id", "a")] [];
     elem "g" [] [elem "rect" [("id", "b"); ("pattern", "yes")] []];
     elem "circle" [("id", "c")] []].

(** A root whose dimensions carry the [cm] suffix. *)
Definition cm_doc : Element :=
  elem "svg" [("width", "10cm"); ("height", "7cm")]
    [elem "rect" [("id", "a")] []].

(** A shape whose [width] is not a number, between two well-formed ones. *)
Definition bad_rect : Element :=
  elem "rect" [("id", "b"); ("width", "oops")] [].

Definition broken_doc : Element :=
  elem "svg" [("width", "100"); ("height", "50")]
    [elem "rect" [("id", "a")] [];
     bad_rect;
     elem "circle" [("id", "c")] []].

(** The same root with only the children before the bad shape. *)
Definition broken_doc_before : Element :=
  Elem (tag broken_doc) (attrib broken_doc) [elem "rect" [("id", "a")] []].

(** A loaded document with two registered paths. *)
Definition two_paths : SVG :=
  assign_path_lookup
    (<["a" := mkShape "a" false false]>
       (<["b" := mkShape "b" true false]> ∅))
    (blank 8).

(** *** More sample documents *)

(** A root whose [viewBox] has three items. *)
Definition short_viewbox_doc : Element :=
  elem "svg" [("width", "100"); ("height", "50"); ("viewBox", "0 0 100")]
    [elem "rect" [("id", "a")] []].

(** A root with no attribute and no child. *)
Definition empty_doc : Element := elem "svg" [] [].

(** A shape, a text element and a group. *)
Definition rect_a : Element := elem "rect" [("id", "a")] [].
Definition text_t : Element := elem "text" [("id", "t")] [].
Definition group_g : Element := elem "g" [("id", "g")] [].

(** A group whose second child cannot be built. *)
Definition broken_group : Element :=
  elem "g" [("id", "g")] [rect_a; bad_rect; elem "circle" [("id", "c")] []].

(** The blank document with both anchor offsets at zero. *)
Definition anchored_origin : SVG :=
  assign_a_y (PyInt 0) (assign_a_x (PyFloat 0) (blank 8)).

End Sample.

(** * Properties *)

(** ** Strings *)

Lemma numeral_char_not_c (c : ascii) :
  is_numeral_char c = true → c ≠ "c"%char.
Proof. intros Hc ->. vm_compute in Hc. discriminate. Qed.

(** A numeral followed by [cm]: the only occurrence of [cm] is the suffix,
    and replacing it by [0] appends a zero to the numeral. *)
Lemma numeral_cm_replace (N : string) :
  numeral_text N = true →
  str_contains "cm" (N +:+ "cm") = true
  ∧ str_replace "cm" "0" (N +:+ "cm") = N +:+ "0".
Proof.
  unfold str_replace. induction N as [|c N IH]; intros Hnum; [done|].
  simpl in Hnum. apply andb_prop in Hnum as [Hc HN].
  destruct (IH HN) as [IH1 IH2]. apply numeral_char_not_c in Hc.
  assert (Hpre : String.prefix "cm" (String c N +:+ "cm") = false).
  { change (String c N +:+ "cm") with (String c (N +:+ "cm")).
    cbn [String.prefix]. by destruct (Ascii.ascii_dec "c" c) as [<-|]. }
  split.
  - change (String c N +:+ "cm") with (String c (N +:+ "cm")).
    cbn [str_contains]. rewrite IH1. by rewrite orb_true_r.
  - change (String c N +:+ "cm") with (String c (N +:+ "cm")) in *.
    cbn [str_replace_from]. rewrite Hpre. by rewrite IH2.
Qed.

(** ** The monad *)

Section MonadFacts.
Context `{Shapes}.

Lemma bind_run {A B} (m : M A) (k : A → M B) (s : SVG) :
  (m ≫= k) s
  = match m s with
    | (inl ex, s1, t1) => (inl ex, s1, t1)
    | (inr a, s1, t1) =>
        match k a s1 with
        | (r, s2, t2) => (r, s2, t1 ++ t2)
        end
    end.
Proof. reflexivity. Qed.

Lemma for_cons {A} (x : A) (l : list A) (body : A → M unit) :
  for_ (x :: l) body = (body x ;; for_ l body).
Proof. reflexivity. Qed.

(** A loop stops at the first iteration that raises. *)
Lemma for_raise {A} (body : A → M unit) (l1 l2 : list A) (x : A) :
  ∀ (s s1 s2 : SVG) t1 t2 ex,
  for_ l1 body s = (inr tt, s1, t1) →
  body x s1 = (inl ex, s2, t2) →
  for_ (l1 ++ x :: l2) body s = (inl ex, s2, t1 ++ t2).
Proof.
  induction l1 as [|y l1 IH]; intros s s1 s2 t1 t2 ex Hpre Hx.
  - cbv in Hpre. simplify_eq. simpl app. rewrite for_cons, bind_run, Hx. done.
  - simpl app. rewrite for_cons, bind_run in *.
    destruct (body y s) as [[[ey|[]] sy] ty]; [done|].
    destruct (for_ l1 body sy) as [[[e1|[]] sa] ta] eqn:Hrun; [done|].
    simplify_eq. rewrite (IH _ _ _ _ _ _ Hrun Hx). by rewrite app_assoc.
Qed.

Lemma keeps_ret {A} (a : A) : keeps_dimensions (mret a).
Proof. intros s r s' t Hrun. cbv in Hrun. by simplify_eq. Qed.

Lemma keeps_bind {A B} (m : M A) (k : A → M B) :
  keeps_dimensions m → (∀ a, keeps_dimensions (k a)) →
  keeps_dimensions (m ≫= k).
Proof.
  intros Hm Hk s r s' t. rewrite bind_run.
  destruct (m s) as [[[ex|a] s1] t1] eqn:Hrun.
  - intros; simplify_eq. by eapply Hm.
  - destruct (k a s1) as [[r2 s2] t2] eqn:Hrun2. intros; simplify_eq.
    destruct (Hm _ _ _ _ Hrun) as [Hw1 Hh1].
    destruct (Hk _ _ _ _ _ Hrun2) as [Hw2 Hh2]. split; congruence.
Qed.

Lemma keeps_modify (f : SVG → SVG) :
  (∀ s, width (f s) = width s ∧ height (f s) = height s) →
  keeps_dimensions (modify f).
Proof. intros Hf s r s' t Hrun. cbv [modify] in Hrun. simplify_eq. apply Hf. Qed.

Lemma keeps_pure {A} (m : M A) :
  (∀ s, ∃ r t, m s = (r, s, t)) → keeps_dimensions m.
Proof.
  intros Hm s r s' t Hrun. destruct (Hm s) as (r' & t' & Heq).
  rewrite Heq in Hrun. by simplify_eq.
Qed.

Lemma keeps_try_except {A} (body : M A) (handler : exn → M A) :
  keeps_dimensions body → (∀ ex, keeps_dimensions (handler ex)) →
  keeps_dimensions (try_except body handler).
Proof.
  intros Hb Hh s r s' t. unfold try_except.
  destruct (body s) as [[[ex|a] s1] t1] eqn:Hrun.
  - destruct (handler ex s1) as [[r2 s2] t2] eqn:Hrun2. intros; simplify_eq.
    destruct (Hb _ _ _ _ Hrun) as [Hw1 Hh1].
    destruct (Hh _ _ _ _ _ Hrun2) as [Hw2 Hh2]. split; congruence.
  - intros; simplify_eq. by eapply Hb.
Qed.

Lemma keeps_for {A} (l : list A) (body : A → M unit) :
  Forall (λ x, keeps_dimensions (body x)) l → keeps_dimensions (for_ l body).
Proof.
  induction 1 as [|x l Hx _ IH]; [apply keeps_ret|].
  rewrite for_cons. apply keeps_bind; [done|]. by intros [].
Qed.

Lemma Element_nested_ind (P : Element → Prop) :
  (∀ t a cs, Forall P cs → P (Elem t a cs)) → ∀ e, P e.
Proof.
  intros step. fix IH 1. intros [t a cs]. apply step.
  induction cs as [|c cs IHcs]; constructor; [apply IH|exact IHcs].
Qed.
End MonadFacts.


(** ** Stencil masks *)

(** Linear arithmetic with the powers of two taken as opaque numbers. *)
Ltac lia_pow :=
  repeat match goal with
         | |- context [2 ^ ?e] =>
             let p := fresh "p" in set (p := 2 ^ e) in *; clearbody p
         | Hp : context [2 ^ ?e] |- _ =>
             let p := fresh "p" in set (p := 2 ^ e) in *; clearbody p
         end;
  lia.

Section StencilFacts.
Context `{Shapes}.

(** One call below the bound: the counter moves up, nothing is cleared. *)
Lemma next_stencil_mask_below (self : SVG) :
  _stencil_mask self + 1 ≤ 2 ^ stencil_bits (config self) - 1 →
  _next_stencil_mask self
  = (inr (_stencil_mask self + 1),
     assign_stencil_mask (_stencil_mask self + 1) self, []).
Proof.
  intros Hle. unfold _next_stencil_mask, mbind, M_bind. simpl.
  rewrite bool_decide_eq_false_2 by lia_pow. reflexivity.
Qed.

(** One call at the bound: the counter restarts at 1 and the buffer is
    cleared. *)
Lemma next_stencil_mask_wrap (self : SVG) :
  2 ^ stencil_bits (config self) - 1 < _stencil_mask self + 1 →
  _next_stencil_mask self
  = (inr 1, assign_stencil_mask 1 self,
     [EvGL (glStencilMask 255); EvGL (glClear GL_STENCIL_BUFFER_BIT)]).
Proof.
  intros Hlt. unfold _next_stencil_mask, mbind, M_bind. simpl.
  rewrite bool_decide_eq_true_2 by lia_pow. reflexivity.
Qed.

Lemma issue_masks_S (n : nat) (self : SVG) :
  issue_masks (S n) self
  = match _next_stencil_mask self with
    | (inl ex, s1, t1) => (inl ex, s1, t1)
    | (inr m, s1, t1) =>
        match issue_masks n s1 with
        | (inl ex, s2, t2) => (inl ex, s2, t1 ++ t2)
        | (inr ms, s2, t2) => (inr (m :: ms), s2, t1 ++ t2)
        end
    end.
Proof.
  simpl. unfold mbind, M_bind, mret, M_ret.
  destruct (_next_stencil_mask self) as [[[ex|m] s1] t1]; [reflexivity|].
  destruct (issue_masks n s1) as [[[ex|ms] s2] t2]; [reflexivity|].
  by rewrite app_nil_r.
Qed.

(** While the counter stays within the bound, [n] calls hand out the
    next [n] integers and clear nothing. *)
Lemma issue_masks_below (n : nat) : ∀ self : SVG,
  _stencil_mask self + Z.of_nat n ≤ 2 ^ stencil_bits (config self) - 1 →
  ∃ self',
    issue_masks n self
    = (inr (seqZ (_stencil_mask self + 1) (Z.of_nat n)), self', [])
    ∧ _stencil_mask self' = _stencil_mask self + Z.of_nat n
    ∧ config self' = config self.
Proof.
  induction n as [|n IH]; intros self Hle.
  - exists self. simpl. split; [reflexivity|]. split; [lia_pow|reflexivity].
  - rewrite issue_masks_S, next_stencil_mask_below by lia_pow.
    destruct (IH (assign_stencil_mask (_stencil_mask self + 1) self))
      as (self' & Hrun & Hmask & Hcfg); [simpl; lia_pow|].
    clear IH. exists self'. rewrite Hrun. simpl in *.
    split; [|split; [lia_pow|done]].
    rewrite (seqZ_cons (_stencil_mask self + 1)) by lia_pow.
    replace (Z.succ (_stencil_mask self + 1))
      with (_stencil_mask self + 1 + 1) by lia.
    replace (Z.pred (Z.of_nat (S n))) with (Z.of_nat n) by lia.
    reflexivity.
Qed.

(** Running [n] calls and then [k] more is running [n + k] calls. *)
Lemma issue_masks_app (n k : nat) : ∀ (self s1 s2 : SVG) ms1 ms2 t1 t2,
  issue_masks n self = (inr ms1, s1, t1) →
  issue_masks k s1 = (inr ms2, s2, t2) →
  issue_masks (n + k) self = (inr (ms1 ++ ms2), s2, t1 ++ t2).
Proof.
  induction n as [|n IH]; intros self s1 s2 ms1 ms2 t1 t2 Hn Hk.
  - simpl in Hn. unfold mret, M_ret in Hn. by simplify_eq.
  - rewrite issue_masks_S in Hn. change (S n + k)%nat with (S (n + k)).
    rewrite issue_masks_S.
    destruct (_next_stencil_mask self) as [[[ex|m] sa] ta]; [done|].
    destruct (issue_masks n sa) as [[[ex|ms] sb] tb] eqn:Hrun; [done|].
    simplify_eq. rewrite (IH _ _ _ _ _ _ _ Hrun Hk).
    by rewrite app_assoc.
Qed.

(** The counter never leaves [[0, bound]] and every mask handed out lies
    in [[1, bound]], where [bound] is the larger of 1 and
    [2 ^ stencil_bits - 1]. *)
Lemma issue_masks_bounded (n : nat) : ∀ self : SVG,
  0 ≤ stencil_bits (config self) →
  0 ≤ _stencil_mask self ≤ Z.max 1 (2 ^ stencil_bits (config self) - 1) →
  ∃ ms self' tr,
    issue_masks n self = (inr ms, self', tr)
    ∧ length ms = n
    ∧ Forall (λ m, 1 ≤ m ≤ Z.max 1 (2 ^ stencil_bits (config self) - 1)) ms
    ∧ config self' = config self.
Proof.
  induction n as [|n IH]; intros self Hbits Hmask.
  - exists [], self, []. by repeat split.
  - rewrite issue_masks_S.
    destruct (decide (_stencil_mask self + 1
                      ≤ 2 ^ stencil_bits (config self) - 1)) as [Hle|Hgt].
    + rewrite next_stencil_mask_below by done.
      destruct (IH (assign_stencil_mask (_stencil_mask self + 1) self))
        as (ms & self' & tr & Hrun & Hlen & Hall & Hcfg);
        [done|simpl; lia_pow|].
      rewrite Hrun. eexists _, _, _. split; [reflexivity|].
      simpl in *. split; [by rewrite Hlen|]. split; [|done].
      constructor; [lia_pow|done].
    + rewrite next_stencil_mask_wrap by lia_pow.
      destruct (IH (assign_stencil_mask 1 self))
        as (ms & self' & tr & Hrun & Hlen & Hall & Hcfg);
        [done|simpl; lia_pow|].
      rewrite Hrun. eexists _, _, _. split; [reflexivity|].
      simpl in *. split; [by rewrite Hlen|]. split; [|done].
      constructor; [lia_pow|done].
Qed.

(** With no stencil bits the bound is 0, so every call wraps: it hands
    out 1 and clears the buffer. *)
Lemma issue_masks_no_bits (n : nat) : ∀ self : SVG,
  stencil_bits (config self) = 0 →
  0 ≤ _stencil_mask self →
  ∃ self' tr,
    issue_masks n self = (inr (replicate n 1), self', tr)
    ∧ stencil_clears tr = n
    ∧ config self' = config self.
Proof.
  induction n as [|n IH]; intros self Hbits Hmask.
  - exists self, []. by repeat split.
  - rewrite issue_masks_S, next_stencil_mask_wrap by (rewrite Hbits; simpl; lia).
    destruct (IH (assign_stencil_mask 1 self))
      as (self' & tr & Hrun & Hclears & Hcfg); [done|simpl; lia|].
    rewrite Hrun. eexists _, _. split; [reflexivity|].
    split; [|done]. unfold stencil_clears in *. simpl. by rewrite Hclears.
Qed.

(** C1: with [stencil_bits = b > 0] and the counter at 0, every mask
    that [_next_stencil_mask] returns lies in [[1, 2^b - 1]], and [2^b]
    consecutive calls wrap around exactly once: the masks handed out are
    1, ..., [2^b - 1] and then 1 again, the only events of the run are one
    [glStencilMask(0xFF)] and one [glClear(GL_STENCIL_BUFFER_BIT)], and
    the counter ends at 1. *)
Theorem next_stencil_mask_range_and_single_wrap (self : SVG) (b : Z) :
  stencil_bits (config self) = b →
  0 < b →
  _stencil_mask self = 0 →
  (∀ n : nat, ∃ ms self' tr,
      issue_masks n self = (inr ms, self', tr)
      ∧ length ms = n
      ∧ Forall (λ m, 1 ≤ m ≤ 2 ^ b - 1) ms)
  ∧ (∃ self' tr,
      issue_masks (Z.to_nat (2 ^ b)) self
      = (inr (seqZ 1 (2 ^ b - 1) ++ [1]), self', tr)
      ∧ tr = [EvGL (glStencilMask 255); EvGL (glClear GL_STENCIL_BUFFER_BIT)]
      ∧ stencil_clears tr = 1%nat
      ∧ _stencil_mask self' = 1).
Proof.
  intros Hb Hpos Hzero.
  assert (Hpow : 2 ≤ 2 ^ b).
  { change 2 with (2 ^ 1) at 1. apply Z.pow_le_mono_r; lia. }
  split.
  - intros n.
    destruct (issue_masks_bounded n self)
      as (ms & self' & tr & Hrun & Hlen & Hall & _).
    { lia. }
    { rewrite Hzero. lia. }
    exists ms, self', tr. split; [done|]. split; [done|].
    rewrite Hb, Z.max_r in Hall by lia. done.
  - destruct (issue_masks_below (Z.to_nat (2 ^ b - 1)) self)
      as (s1 & Hrun & Hmask & Hcfg).
    { rewrite Hzero, Hb. lia. }
    assert (Hlast : issue_masks 1 s1
                    = (inr [1], assign_stencil_mask 1 s1,
                       [EvGL (glStencilMask 255);
                        EvGL (glClear GL_STENCIL_BUFFER_BIT)])).
    { rewrite issue_masks_S, next_stencil_mask_wrap; [done|].
      rewrite Hcfg, Hb, Hmask, Hzero. lia. }
    exists (assign_stencil_mask 1 s1),
      [EvGL (glStencilMask 255); EvGL (glClear GL_STENCIL_BUFFER_BIT)].
    replace (Z.to_nat (2 ^ b)) with (Z.to_nat (2 ^ b - 1) + 1)%nat by lia.
    rewrite (issue_masks_app _ _ _ _ _ _ _ _ _ Hrun Hlast).
    rewrite Hzero, Z2Nat.id by lia. simpl. by repeat split.
Qed.

(** C10: when the config reports no stencil bits, [allow_stencil] is
    false, yet [_next_stencil_mask] does not fail: every call returns 1
    and clears the stencil buffer, so [n] calls clear it [n] times.  For
    any bit depth, no mask handed out exceeds the larger of 1 and
    [2^stencil_bits - 1]. *)
Theorem next_stencil_mask_without_bits `{SvgConstants} :
  allow_stencil (SVGConfig_init 0) = false
  ∧ (∀ self : SVG,
       stencil_bits (config self) = 0 →
       0 ≤ _stencil_mask self →
       _next_stencil_mask self
       = (inr 1, assign_stencil_mask 1 self,
          [EvGL (glStencilMask 255); EvGL (glClear GL_STENCIL_BUFFER_BIT)]))
  ∧ (∀ (self : SVG) (n : nat),
       stencil_bits (config self) = 0 →
       _stencil_mask self = 0 →
       ∃ self' tr,
         issue_masks n self = (inr (replicate n 1), self', tr)
         ∧ stencil_clears tr = n)
  ∧ (∀ (self : SVG) (n : nat),
       0 ≤ stencil_bits (config self) →
       _stencil_mask self = 0 →
       ∃ ms self' tr,
         issue_masks n self = (inr ms, self', tr)
         ∧ length ms = n
         ∧ Forall (λ m, m ≤ Z.max 1 (2 ^ stencil_bits (config self) - 1)) ms).
Proof.
  split; [reflexivity|]. split; [|split].
  - intros self Hbits Hmask. apply next_stencil_mask_wrap.
    rewrite Hbits. simpl. lia.
  - intros self n Hbits Hzero.
    destruct (issue_masks_no_bits n self)
      as (self' & tr & Hrun & Hclears & _); [done|lia|].
    by exists self', tr.
  - intros self n Hbits Hzero.
    destruct (issue_masks_bounded n self)
      as (ms & self' & tr & Hrun & Hlen & Hall & _); [done|lia|].
    exists ms, self', tr. split; [done|]. split; [done|].
    eapply Forall_impl; [exact Hall|]. simpl. lia.
Qed.

End StencilFacts.

(** ** Parsing the document *)

Section ParseFacts.
Context `{Shapes} `{ParserUtils} `{!Builders}.

Lemma parse_element_unfold (e : Element) (parent : option SvgElementScope) :
  _parse_element e parent
  = (scope ← lift (SvgElementScope_new e parent) ;
     (if _is_path_tag e then
        path ← SVGPath_new scope e ;
        modify (λ self, assign_paths (_paths self ++ [path]) self) ;;
        modify (λ self,
          assign_path_lookup (<[path_id scope := path]> (path_lookup self)) self)
      else if str_endswith (tag e) "text" then
        _warn "Text tag not supported"
      else if str_endswith (tag e) "linearGradient" then
        g ← LinearGradient_new e ;
        modify (λ self,
          assign_gradients (<[Element_get e "id" := g]> (_gradients self)) self)
      else if str_endswith (tag e) "radialGradient" then
        g ← RadialGradient_new e ;
        modify (λ self,
          assign_gradients (<[Element_get e "id" := g]> (_gradients self)) self)
      else if str_endswith (tag e) "pattern" then
        p ← Pattern_new e ;
        modify (λ self,
          assign_patterns (<[Element_get e "id" := p]> (patterns self)) self)
      else mret tt) ;;
     for_ (children e) (guarded_parse (Some scope))).
Proof. destruct e. reflexivity. Qed.

Lemma keeps_log_and_reraise (e : Element) (ex : exn) :
  keeps_dimensions (log_and_reraise e ex).
Proof. apply keeps_pure. intros s. by eexists _, _. Qed.

Lemma parse_element_keeps_dimensions :
  builders_keep_dimensions →
  ∀ e parent, keeps_dimensions (_parse_element e parent).
Proof.
  intros (Hpath & Hlin & Hrad & Hpat).
  induction e as [t a cs IH] using Element_nested_ind. intros parent.
  rewrite parse_element_unfold.
  apply keeps_bind; [apply keeps_pure; intros s; by eexists _, _|].
  intros scope. apply keeps_bind.
  - repeat case_match;
      repeat (first [ apply keeps_ret
                    | apply keeps_bind; [|intros ?]
                    | apply keeps_modify; by intros ?
                    | done
                    | apply keeps_pure; intros ?; by eexists _, _ ]).
  - intros _. apply keeps_for. simpl.
    eapply Forall_impl; [exact IH|]. intros c Hc.
    apply keeps_try_except; [apply Hc|apply keeps_log_and_reraise].
Qed.

Lemma parse_doc_unfold (root : Element) (s : SVG) :
  _parse_doc root s
  = match parse_float (dimension_text root "width") with
    | inl ex => (inl ex, assign_paths [] s, [])
    | inr w0 =>
        match parse_float (dimension_text root "height") with
        | inl ex => (inl ex, assign_width w0 (assign_paths [] s), [])
        | inr h0 =>
            let s1 := assign_height h0 (assign_width w0 (assign_paths [] s)) in
            match Element_get root "viewBox" with
            | Some vb =>
                if str_truthy vb then
                  match parse_list vb with
                  | inl ex => (inl ex, s1, [])
                  | inr items =>
                      match unpack4_floats items with
                      | inl ex => (inl ex, s1, [])
                      | inr (x, y, w, h) =>
                          for_ (children root) (guarded_parse None)
                            (assign_opacity 1 (assign_width w (assign_height h s1)))
                      end
                  end
                else
                  for_ (children root) (guarded_parse None) (assign_opacity 1 s1)
            | None =>
                for_ (children root) (guarded_parse None) (assign_opacity 1 s1)
            end
        end
    end.
Proof.
  unfold _parse_doc. fold (dimension_text root "width").
  fold (dimension_text root "height").
  unfold mbind, M_bind, modify, lift, mret, M_ret.
  destruct (parse_float (dimension_text root "width")) as [ex|w0]; [done|].
  destruct (parse_float (dimension_text root "height")) as [ex|h0]; [done|].
  cbv zeta.
  destruct (Element_get root "viewBox") as [vb|].
  - destruct (str_truthy vb).
    + destruct (parse_list vb) as [ex|items]; [done|].
      destruct (unpack4_floats items) as [ex|[[[x y] w] h]]; [done|].
      by destruct (for_ _ _ _) as [[? ?] ?].
    + by destruct (for_ _ _ _) as [[? ?] ?].
  - by destruct (for_ _ _ _) as [[? ?] ?].
Qed.

Lemma guarded_loop_keeps_dimensions (cs : list Element)
    (scope : option SvgElementScope) :
  builders_keep_dimensions →
  keeps_dimensions (for_ cs (guarded_parse scope)).
Proof.
  intros Hb. apply keeps_for, Forall_forall. intros c _.
  apply keeps_try_except;
    [by apply parse_element_keeps_dimensions|apply keeps_log_and_reraise].
Qed.

Lemma guarded_parse_raise (c : Element) (scope : option SvgElementScope)
    (s s1 : SVG) t1 ex :
  _parse_element c scope s = (inl ex, s1, t1) →
  guarded_parse scope c s
  = (inl ex, s1,
     t1 ++ [EvPrint "Exception while parsing element" (Some c)]).
Proof. intros Hrun. unfold guarded_parse, try_except. by rewrite Hrun. Qed.

(** C2: when the root has a non-empty [viewBox] that [parse_list] splits
    into four strings read by [parse_float] as [x y w h], a document that
    [_parse_doc] has parsed has width [w] and height [h], whatever the
    [width] and [height] attributes of the root say.  The literal strings
    only have to be accepted by [parse_float]: then the dimensions are
    [w] and [h] when the loop over the children starts and stay so to
    the end of [_parse_doc], whatever its outcome. *)
Theorem viewBox_sets_dimensions (root : Element) (s : SVG)
    (vb a b c d : string) (x y w h : float) :
  Element_get root "viewBox" = Some vb →
  str_truthy vb = true →
  parse_list vb = inr [a; b; c; d] →
  parse_float a = inr x → parse_float b = inr y →
  parse_float c = inr w → parse_float d = inr h →
  builders_keep_dimensions →
  (∀ s' t, _parse_doc root s = (inr tt, s', t) →
           width s' = Some w ∧ height s' = Some h)
  ∧ (∀ w0 h0,
       parse_float (dimension_text root "width") = inr w0 →
       parse_float (dimension_text root "height") = inr h0 →
       ∃ s1,
         _parse_doc root s = for_ (children root) (guarded_parse None) s1
         ∧ width s1 = Some w ∧ height s1 = Some h
         ∧ ∀ r s' t, _parse_doc root s = (r, s', t) →
                     width s' = Some w ∧ height s' = Some h).
Proof.
  intros Hvb Htruthy Hlist Ha Hb Hc Hd Hkeep.
  assert (Hunpack : unpack4_floats [a; b; c; d] = inr (x, y, w, h)).
  { unfold unpack4_floats. rewrite Ha, Hb, Hc, Hd. reflexivity. }
  assert (Hloop := guarded_loop_keeps_dimensions (children root) None Hkeep).
  rewrite parse_doc_unfold, Hvb, Htruthy, Hlist, Hunpack.
  split.
  - intros s' t.
    destruct (parse_float (dimension_text root "width")) as [ex|w0]; [done|].
    destruct (parse_float (dimension_text root "height")) as [ex|h0]; [done|].
    cbv zeta. intros Hrun. by destruct (Hloop _ _ _ _ Hrun) as [-> ->].
  - intros w0 h0 -> ->. cbv zeta. eexists. split; [reflexivity|].
    split; [done|]. split; [done|].
    intros r s' t Hrun. by destruct (Hloop _ _ _ _ Hrun) as [-> ->].
Qed.

(** C8, as amended: without a [viewBox], a [width] (or [height])
    attribute made of a numeral [N] followed by [cm] is read as the
    numeral [N] followed by the digit 0: the dimension is what
    [parse_float] makes of that string, and no unit conversion takes
    place. *)
Theorem cm_suffix_appends_zero (root : Element) (s : SVG) :
  (Element_get root "viewBox" = None ∨ Element_get root "viewBox" = Some "") →
  builders_keep_dimensions →
  (∀ N w0 h0,
     numeral_text N = true →
     Element_get root "width" = Some (N +:+ "cm") →
     parse_float (N +:+ "0") = inr w0 →
     parse_float (dimension_text root "height") = inr h0 →
     ∃ s1,
       _parse_doc root s = for_ (children root) (guarded_parse None) s1
       ∧ width s1 = Some w0
       ∧ ∀ r s' t, _parse_doc root s = (r, s', t) → width s' = Some w0)
  ∧ (∀ N w0 h0,
       numeral_text N = true →
       Element_get root "height" = Some (N +:+ "cm") →
       parse_float (dimension_text root "width") = inr w0 →
       parse_float (N +:+ "0") = inr h0 →
       ∃ s1,
         _parse_doc root s = for_ (children root) (guarded_parse None) s1
         ∧ height s1 = Some h0
         ∧ ∀ r s' t, _parse_doc root s = (r, s', t) → height s' = Some h0).
Proof.
  intros Hvb Hkeep.
  assert (Hloop := guarded_loop_keeps_dimensions (children root) None Hkeep).
  assert (Htext : ∀ key N, numeral_text N = true →
            Element_get root key = Some (N +:+ "cm") →
            dimension_text root key = N +:+ "0").
  { intros key N HN Hget. unfold dimension_text, Element_get_default.
    unfold Element_get in Hget. rewrite Hget. simpl.
    destruct (numeral_cm_replace N HN) as [-> ->]. done. }
  split; intros N w0 h0 HN Hget Hw Hh.
  - rewrite parse_doc_unfold, (Htext _ _ HN Hget), Hw, Hh. cbv zeta.
    destruct Hvb as [-> | ->]; simpl; (eexists; split; [reflexivity|]);
      (split; [done|]); intros r s' t Hrun;
      by destruct (Hloop _ _ _ _ Hrun) as [-> _].
  - rewrite parse_doc_unfold, (Htext _ _ HN Hget), Hw, Hh. cbv zeta.
    destruct Hvb as [-> | ->]; simpl; (eexists; split; [reflexivity|]);
      (split; [done|]); intros r s' t Hrun;
      by destruct (Hloop _ _ _ _ Hrun) as [_ ->].
Qed.

(** C3, as amended: when the elements before a child of the root parse
    and parsing that child raises, [_parse_doc] prints [Exception while
    parsing element] for it and raises the same exception again: the
    load is aborted in the state the failing element left, and the
    elements after it are never parsed. *)
Theorem parse_doc_reraises (root : Element) (pre post : list Element)
    (bad : Element) (s s0 s1 : SVG) (t0 t1 : list Event) (ex : exn) :
  children root = pre ++ bad :: post →
  _parse_doc (Elem (tag root) (attrib root) pre) s = (inr tt, s0, t0) →
  _parse_element bad None s0 = (inl ex, s1, t1) →
  _parse_doc root s
  = (inl ex, s1,
     t0 ++ t1 ++ [EvPrint "Exception while parsing element" (Some bad)]).
Proof.
  intros Hcs Hpre Hbad. rewrite parse_doc_unfold in *.
  destruct root as [tg attrs cs]. simpl in Hcs. subst cs.
  unfold dimension_text, Element_get_default, Element_get in *. simpl in *.
  apply guarded_parse_raise in Hbad.
  repeat case_match; simplify_eq; try done;
    by apply (for_raise _ _ _ _ _ _ _ _ _ _ Hpre Hbad).
Qed.
End ParseFacts.

(** ** Rendering *)

Section RenderFacts.
Context `{Shapes}.

(** A loop whose body renders the paths of the main pass and skips the
    others emits one render event per path of the main pass, in order. *)
Lemma render_loop (body : SVGPath → M unit) (paths : list SVGPath) (s : SVG) :
  (∀ p s', body p s'
           = (inr tt, s', if in_main_pass p then [EvPathRender p] else [])) →
  for_ paths body s
  = (inr tt, s, EvPathRender <$> filter (λ p, in_main_pass p) paths).
Proof.
  intros Hbody. induction paths as [|p paths IH]; [reflexivity|].
  rewrite for_cons, bind_run, Hbody, IH, filter_cons.
  destruct (decide (in_main_pass p)) as [Hp|Hp].
  - apply Is_true_true in Hp. by rewrite Hp.
  - apply Is_true_false in Hp. by rewrite Hp.
Qed.

Lemma rendered_paths_app (t1 t2 : list Event) :
  rendered_paths (t1 ++ t2) = rendered_paths t1 ++ rendered_paths t2.
Proof. apply omap_app. Qed.

Lemma rendered_paths_renders (paths : list SVGPath) :
  rendered_paths (EvPathRender <$> paths) = paths.
Proof.
  induction paths as [|p paths IH]; [done|].
  rewrite fmap_cons.
  change (rendered_paths (EvPathRender p :: (EvPathRender <$> paths)))
    with (p :: rendered_paths (EvPathRender <$> paths)).
  by rewrite IH.
Qed.

(** [render] returns normally, leaves the object as it was, and emits the
    GL prelude followed by one render event per path of the main pass. *)
Lemma render_run (s : SVG) :
  render s
  = (inr tt, s,
     ([EvGL (glEnable GL_BLEND);
       EvGL (glBlendFunc GL_SRC_ALPHA GL_ONE_MINUS_SRC_ALPHA)]
      ++ (if allow_stencil (config s)
          then [EvGL (glStencilMask 255);
                EvGL (glClear GL_STENCIL_BUFFER_BIT)]
          else []))
     ++ (EvPathRender <$> filter (λ p, in_main_pass p) (_paths s))).
Proof.
  unfold render, _clear_stencils.
  unfold mbind, M_bind, gl, emit, is_stencil_enabled, gets.
  destruct (allow_stencil (config s)); cbn -[for_ filter];
    (rewrite render_loop;
     [done|intros p s'; unfold in_main_pass;
      by destruct (is_pattern p), (is_pattern_part p)]).
Qed.

(** C4: the main render pass calls [render] on exactly the registered
    paths whose [is_pattern] and [is_pattern_part] flags are both false,
    in the order of [_paths]; the calls before the loop render no path,
    and every path flagged as a pattern or as a pattern part is skipped. *)
Theorem render_main_pass (s : SVG) :
  ∃ prelude,
    render s
    = (inr tt, s,
       prelude ++ (EvPathRender <$> filter (λ p, in_main_pass p) (_paths s)))
    ∧ rendered_paths prelude = []
    ∧ rendered_paths
        (prelude ++ (EvPathRender <$> filter (λ p, in_main_pass p) (_paths s)))
      = filter (λ p, in_main_pass p) (_paths s)
    ∧ ∀ p, p ∈ filter (λ p, in_main_pass p) (_paths s)
           ↔ p ∈ _paths s ∧ is_pattern p = false ∧ is_pattern_part p = false.
Proof.
  exists ([EvGL (glEnable GL_BLEND);
           EvGL (glBlendFunc GL_SRC_ALPHA GL_ONE_MINUS_SRC_ALPHA)]
          ++ (if allow_stencil (config s)
              then [EvGL (glStencilMask 255);
                    EvGL (glClear GL_STENCIL_BUFFER_BIT)]
              else [])).
  split; [|split; [|split]].
  - apply render_run.
  - by destruct (allow_stencil (config s)).
  - rewrite rendered_paths_app, rendered_paths_renders.
    by destruct (allow_stencil (config s)).
  - intros p. rewrite list_elem_of_filter. unfold in_main_pass.
    destruct (is_pattern p), (is_pattern_part p); simpl; intuition congruence.
Qed.
End RenderFacts.

(** ** Anchors *)

Section AnchorFacts.
Context `{Shapes}.

Lemma py_eq_str_true (v : pyval) (kw : string) :
  py_eq_str v kw = true ↔ v = PyStr kw.
Proof.
  destruct v as [n|x|s]; simpl; [by split..|].
  rewrite String.eqb_eq. split; congruence.
Qed.

Lemma py_eq_str_false (v : pyval) (kw : string) :
  py_eq_str v kw = false ↔ v ≠ PyStr kw.
Proof.
  rewrite <- py_eq_str_true. by destruct (py_eq_str v kw).
Qed.

(** What [_set_anchor_x] does, branch by branch. *)
Lemma set_anchor_x_run (s : SVG) (w : float) (v : pyval) :
  width s = Some w →
  _set_anchor_x v s
  = (inr tt,
     assign_a_x
       (if py_eq_str v "left" then PyInt 0
        else if py_eq_str v "center" then PyFloat (w * 0.5)
        else if py_eq_str v "right" then PyFloat w
        else v)
       (assign_anchor_x v s),
     []).
Proof.
  intros Hw. unfold _set_anchor_x, mbind, M_bind, modify, getattr. simpl.
  destruct (py_eq_str v "left"); [done|].
  destruct (py_eq_str v "center"); [simpl; by rewrite Hw|].
  destruct (py_eq_str v "right"); [simpl; by rewrite Hw|done].
Qed.

Lemma set_anchor_y_run (s : SVG) (h : float) (v : pyval) :
  height s = Some h →
  _set_anchor_y v s
  = (inr tt,
     assign_a_y
       (if py_eq_str v "bottom" then PyInt 0
        else if py_eq_str v "center" then PyFloat (h * 0.5)
        else if py_eq_str v "top" then PyFloat h
        else v)
       (assign_anchor_y v s),
     []).
Proof.
  intros Hh.
  unfold _set_anchor_y, _get_anchor_y, mbind, M_bind, modify, getattr. simpl.
  destruct (py_eq_str v "bottom"); [done|].
  destruct (py_eq_str v "center"); [simpl; by rewrite Hh|].
  destruct (py_eq_str v "top"); [simpl; by rewrite Hh|done].
Qed.

(** C5: on a loaded document of width [w] and height [h], assigning an
    anchor resolves the keywords against the dimensions: for [anchor_x],
    ['left'] gives 0, ['center'] gives [w * .5] (half the width) and
    ['right'] gives [w]; for [anchor_y], ['bottom'] gives 0, ['center']
    gives [h * .5] and ['top'] gives [h]; any other value is the offset
    itself. *)
Theorem anchor_setters_resolve (s : SVG) (w h : float) (v : pyval) :
  width s = Some w →
  height s = Some h →
  (∃ sx,
     _set_anchor_x v s = (inr tt, sx, [])
     ∧ (v = PyStr "left" → _a_x sx = Some (PyInt 0))
     ∧ (v = PyStr "center" → _a_x sx = Some (PyFloat (w * 0.5)))
     ∧ (v = PyStr "right" → _a_x sx = Some (PyFloat w))
     ∧ (v ≠ PyStr "left" → v ≠ PyStr "center" → v ≠ PyStr "right" →
        _a_x sx = Some v))
  ∧ (∃ sy,
       _set_anchor_y v s = (inr tt, sy, [])
       ∧ (v = PyStr "bottom" → _a_y sy = Some (PyInt 0))
       ∧ (v = PyStr "center" → _a_y sy = Some (PyFloat (h * 0.5)))
       ∧ (v = PyStr "top" → _a_y sy = Some (PyFloat h))
       ∧ (v ≠ PyStr "bottom" → v ≠ PyStr "center" → v ≠ PyStr "top" →
          _a_y sy = Some v)).
Proof.
  intros Hw Hh. split.
  - eexists. split; [by apply set_anchor_x_run|]. simpl.
    repeat split.
    + by intros ->.
    + by intros ->.
    + by intros ->.
    + intros H1 H2 H3. apply py_eq_str_false in H1, H2, H3.
      by rewrite H1, H2, H3.
  - eexists. split; [by apply set_anchor_y_run|]. simpl.
    repeat split.
    + by intros ->.
    + by intros ->.
    + by intros ->.
    + intros H1 H2 H3. apply py_eq_str_false in H1, H2, H3.
      by rewrite H1, H2, H3.
Qed.

(** C9: on a loaded document, reading [anchor_x] after assigning [v] to
    it returns [v] itself, keyword or number, not the resolved offset;
    likewise for [anchor_y]. *)
Theorem anchor_round_trip (s : SVG) (w h : float) (v : pyval) :
  width s = Some w →
  height s = Some h →
  (∃ sx, (_set_anchor_x v ;; _get_anchor_x) s = (inr v, sx, []))
  ∧ (∃ sy, (_set_anchor_y v ;; _get_anchor_y) s = (inr v, sy, [])).
Proof.
  intros Hw Hh. split; eexists.
  - rewrite bind_run, (set_anchor_x_run _ _ _ Hw). reflexivity.
  - rewrite bind_run, (set_anchor_y_run _ _ _ Hh). reflexivity.
Qed.
End AnchorFacts.

(** ** Path lookup *)

Section LookupFacts.
Context `{Shapes}.

Lemma path_ids_elem (s : SVG) (i : string) :
  i ∈ (map_to_list (path_lookup s)).*1 ↔ is_Some (path_lookup s !! i).
Proof.
  rewrite list_elem_of_fmap. split.
  - intros ([k p] & -> & Hin). apply elem_of_map_to_list in Hin. by eexists.
  - intros [p Hp]. exists (i, p). split; [done|].
    by apply elem_of_map_to_list.
Qed.

(** C7: [get_path_by_id] raises [KeyError] for every id that is not
    among [get_path_ids], and for every id among them it returns the
    path the lookup table holds for it; a path registered under an id is
    the one returned for that id. *)
Theorem get_path_by_id_spec (s : SVG) :
  ∃ ids,
    get_path_ids s = (inr ids, s, [])
    ∧ (∀ i, i ∉ ids → get_path_by_id i s = (inl (KeyError i), s, []))
    ∧ (∀ i, i ∈ ids →
            ∃ path, path_lookup s !! i = Some path
                    ∧ get_path_by_id i s = (inr path, s, []))
    ∧ (∀ i path,
         get_path_by_id i
           (assign_path_lookup (<[i := path]> (path_lookup s)) s)
         = (inr path,
            assign_path_lookup (<[i := path]> (path_lookup s)) s, [])).
Proof.
  exists ((map_to_list (path_lookup s)).*1). split; [done|].
  split; [|split].
  - intros i Hi. rewrite path_ids_elem in Hi.
    unfold get_path_by_id, mbind, M_bind, get_self.
    destruct (path_lookup s !! i) as [p|] eqn:Hp; [|done].
    destruct Hi. by eexists.
  - intros i Hi. apply path_ids_elem in Hi as [p Hp]. exists p.
    split; [done|]. unfold get_path_by_id, mbind, M_bind, get_self.
    by rewrite Hp.
  - intros i p. unfold get_path_by_id, mbind, M_bind, get_self. simpl.
    by rewrite lookup_insert_eq.
Qed.
End LookupFacts.

(** ** Configuration *)

Section ConfigFacts.
Context `{SvgConstants}.

(** [super_detailed] scales a fresh default config: its result does not
    depend on the receiver, which it leaves as it was. *)
Lemma super_detailed_fresh (c : SVGConfig) (bits : Z) :
  super_detailed c bits
  = (c,
     {| stencil_bits := bits;
        has_framebuffer_objects := true;
        allow_stencil := bool_decide (0 < bits);
        bezier_points := BEZIER_POINTS * 10;
        circle_points := CIRCLE_POINTS * 10;
        tolerance := (TOLERANCE / 100)%float |}).
Proof. reflexivity. Qed.
End ConfigFacts.

(** ** Loading a document *)

Section LoadFacts.
Context `{Shapes} `{ParserUtils} `{!Builders} `{SvgConstants}.

Lemma pattern_loop (pats : list Pattern) (s : SVG) :
  for_ pats Pattern_render s = (inr tt, s, EvPatternRender <$> pats).
Proof.
  induction pats as [|p pats IH]; [reflexivity|].
  rewrite for_cons, bind_run. unfold Pattern_render at 1, emit.
  by rewrite IH.
Qed.

(** [prerender_patterns] and [render] only emit events. *)
Lemma prerender_patterns_run (s : SVG) :
  ∃ tr, prerender_patterns s = (inr tt, s, tr).
Proof.
  unfold prerender_patterns.
  unfold mbind, M_bind, gl, emit, is_stencil_enabled, gets.
  destruct (allow_stencil (config s)); cbn -[for_ map_to_list];
    rewrite pattern_loop; by eexists.
Qed.

Lemma render_only_emits (s : SVG) : ∃ tr, render s = (inr tt, s, tr).
Proof. rewrite render_run. by eexists. Qed.

(** A document that [_parse_doc] parsed has both dimensions. *)
Lemma parse_doc_assigns_dimensions (root : Element) (s s' : SVG) t :
  builders_keep_dimensions →
  _parse_doc root s = (inr tt, s', t) →
  is_Some (width s') ∧ is_Some (height s').
Proof.
  intros Hkeep.
  assert (Hloop := guarded_loop_keeps_dimensions (children root) None Hkeep).
  rewrite parse_doc_unfold.
  destruct (parse_float (dimension_text root "width")) as [ex|w0]; [done|].
  destruct (parse_float (dimension_text root "height")) as [ex|h0]; [done|].
  cbv zeta.
  destruct (Element_get root "viewBox") as [vb|];
    [destruct (str_truthy vb);
     [destruct (parse_list vb) as [ex|items]; [done|];
      destruct (unpack4_floats items) as [ex|[[[x y] w] h]]; [done|]|]|];
    intros Hrun; destruct (Hloop _ _ _ _ Hrun) as [-> ->]; by split.
Qed.

(** X12: an object that [__init__] built has both dimensions assigned
    and holds in [_anchor_x] and [_anchor_y] the anchors it was given, as
    given. *)
Lemma SVG_init_loaded (fname : string) (ax ay : pyval)
    (cfg : option SVGConfig) (bits : Z) (root : Element) (s : SVG) t :
  builders_keep_dimensions →
  SVG_init fname ax ay cfg bits root = (inr tt, s, t) →
  is_Some (width s) ∧ is_Some (height s)
  ∧ _anchor_x s = Some ax ∧ _anchor_y s = Some ay.
Proof.
  intros Hkeep. unfold SVG_init, _generate_disp_list.
  rewrite !bind_run.
  destruct (_parse_doc root _) as [[[ex|[]] s1] t1] eqn:Hdoc; [done|].
  destruct (parse_doc_assigns_dimensions _ _ _ _ Hkeep Hdoc) as [Hw Hh].
  rewrite !bind_run.
  destruct (prerender_patterns_run s1) as (tp & ->).
  destruct (render_only_emits s1) as (tr & ->).
  unfold modify. intros Hrun. cbv [mbind M_bind] in Hrun. simplify_eq.
  simpl. by repeat split.
Qed.
End LoadFacts.

(** ** The sample documents *)

Module SampleFacts.
Import Sample.

Lemma sample_builders_keep_dimensions : builders_keep_dimensions.
Proof.
  split; [|split; [|split]].
  - intros scope e. apply keeps_bind; [|intros ?; apply keeps_ret].
    apply keeps_pure. intros s. by eexists _, _.
  - intros e. apply keeps_ret.
  - intros e. apply keeps_ret.
  - intros e. apply keeps_ret.
Qed.

(** C1 on a document with two stencil bits. *)
Lemma next_stencil_mask_range_and_single_wrap_witness :
  (∀ n : nat, ∃ ms self' tr,
      issue_masks n (blank 2) = (inr ms, self', tr)
      ∧ length ms = n
      ∧ Forall (λ m, 1 ≤ m ≤ 2 ^ 2 - 1) ms)
  ∧ (∃ self' tr,
      issue_masks (Z.to_nat (2 ^ 2)) (blank 2)
      = (inr (seqZ 1 (2 ^ 2 - 1) ++ [1]), self', tr)
      ∧ tr = [EvGL (glStencilMask 255); EvGL (glClear GL_STENCIL_BUFFER_BIT)]
      ∧ stencil_clears tr = 1%nat
      ∧ _stencil_mask self' = 1).
Proof.
  apply (next_stencil_mask_range_and_single_wrap (blank 2) 2);
    [reflexivity|lia|reflexivity].
Defined.

(** C10 on documents with no stencil bits and with three. *)
Lemma next_stencil_mask_without_bits_witness :
  _next_stencil_mask (blank 0)
  = (inr 1, assign_stencil_mask 1 (blank 0),
     [EvGL (glStencilMask 255); EvGL (glClear GL_STENCIL_BUFFER_BIT)])
  ∧ (∃ self' tr,
       issue_masks 3 (blank 0) = (inr (replicate 3 1), self', tr)
       ∧ stencil_clears tr = 3%nat)
  ∧ (∃ ms self' tr,
       issue_masks 9 (blank 3) = (inr ms, self', tr)
       ∧ length ms = 9%nat
       ∧ Forall (λ m, m ≤ Z.max 1 (2 ^ 3 - 1)) ms).
Proof.
  destruct next_stencil_mask_without_bits as (_ & Hone & Hall & Hbound).
  split; [|split].
  - apply Hone; [reflexivity|simpl; lia].
  - apply Hall; reflexivity.
  - apply (Hbound (blank 3) 9%nat); [simpl; lia|reflexivity].
Defined.

(** C2 on [viewbox_doc]: 100 by 50 although the root says [10cm] by 7. *)
Lemma viewBox_sets_dimensions_witness :
  (∀ s' t, _parse_doc viewbox_doc (blank 8) = (inr tt, s', t) →
           width s' = Some 100%float ∧ height s' = Some 50%float)
  ∧ (∀ w0 h0,
       parse_float (dimension_text viewbox_doc "width") = inr w0 →
       parse_float (dimension_text viewbox_doc "height") = inr h0 →
       ∃ s1,
         _parse_doc viewbox_doc (blank 8)
         = for_ (children viewbox_doc) (guarded_parse None) s1
         ∧ width s1 = Some 100%float ∧ height s1 = Some 50%float
         ∧ ∀ r s' t, _parse_doc viewbox_doc (blank 8) = (r, s', t) →
                     width s' = Some 100%float ∧ height s' = Some 50%float).
Proof.
  apply (viewBox_sets_dimensions viewbox_doc (blank 8)
           "0 0 100 50" "0" "0" "100" "50" 0%float 0%float);
    try reflexivity.
  apply sample_builders_keep_dimensions.
Defined.

(** C8, as amended, on [cm_doc]: [10cm] is read as 100, [7cm] as 70. *)
Lemma cm_suffix_appends_zero_witness :
  (∃ s1,
     _parse_doc cm_doc (blank 8)
     = for_ (children cm_doc) (guarded_parse None) s1
     ∧ width s1 = Some 100%float
     ∧ ∀ r s' t, _parse_doc cm_doc (blank 8) = (r, s', t) →
                 width s' = Some 100%float)
  ∧ (∃ s1,
       _parse_doc cm_doc (blank 8)
       = for_ (children cm_doc) (guarded_parse None) s1
       ∧ height s1 = Some 70%float
       ∧ ∀ r s' t, _parse_doc cm_doc (blank 8) = (r, s', t) →
                   height s' = Some 70%float).
Proof.
  destruct (cm_suffix_appends_zero cm_doc (blank 8)) as [Hwidth Hheight].
  - left. reflexivity.
  - apply sample_builders_keep_dimensions.
  - split.
    + apply (Hwidth "10" 100%float 70%float); reflexivity.
    + apply (Hheight "7" 100%float 70%float); reflexivity.
Defined.

Lemma float_100_is_not_10 : 100%float ≠ 10%float.
Proof.
  intros Heq. apply (f_equal (λ x, PrimFloat.eqb x 10)) in Heq.
  vm_compute in Heq. discriminate.
Qed.

(** The claim C8 as stated fails: the root says [width="10cm"], the
    numeral is 10, and the parsed width is 100. *)
Lemma cm_suffix_not_neutralized :
  ∃ s' t,
    _parse_doc cm_doc (blank 8) = (inr tt, s', t)
    ∧ Element_get cm_doc "width" = Some ("10" +:+ "cm")
    ∧ parse_float "10" = inr 10%float
    ∧ width s' = Some 100%float
    ∧ width s' ≠ Some 10%float.
Proof.
  eexists _, _. split; [vm_compute; reflexivity|].
  split; [reflexivity|]. split; [reflexivity|]. split; [reflexivity|].
  simpl. intros Heq. apply float_100_is_not_10. congruence.
Qed.

(** C3, as amended, on [broken_doc]. *)
Lemma parse_doc_reraises_witness :
  _parse_doc broken_doc (blank 8)
  = (inl (ValueError "could not convert string to float"),
     (_parse_doc broken_doc_before (blank 8)).1.2,
     [EvPrint "Exception while parsing element" (Some bad_rect)]).
Proof.
  apply (parse_doc_reraises broken_doc [elem "rect" [("id", "a")] []]
           [elem "circle" [("id", "c")] []] bad_rect (blank 8)
           (_parse_doc broken_doc_before (blank 8)).1.2
           (_parse_doc broken_doc_before (blank 8)).1.2 [] []);
    vm_compute; reflexivity.
Defined.

(** The claim C3 as stated fails: one shape whose constructor raises
    aborts the load, and the well-formed circle after it is never
    registered although it parses when the bad shape is left out. *)
Lemma bad_shape_aborts_document :
  (∃ s' t,
     _parse_doc broken_doc (blank 8)
     = (inl (ValueError "could not convert string to float"), s', t)
     ∧ path_lookup s' !! "c" = None
     ∧ shape_id <$> _paths s' = ["a"])
  ∧ (∃ s' t,
       _parse_doc
         (elem "svg" [("width", "100"); ("height", "50")]
            [elem "rect" [("id", "a")] []; elem "circle" [("id", "c")] []])
         (blank 8)
       = (inr tt, s', t)
       ∧ is_Some (path_lookup s' !! "c")).
Proof.
  split; eexists _, _.
  - split; [vm_compute; reflexivity|]. split; reflexivity.
  - split; [vm_compute; reflexivity|]. by eexists.
Qed.

(** C5 on the blank 100 by 50 document. *)
Lemma anchor_setters_resolve_witness :
  (∃ sx,
     _set_anchor_x (PyStr "center") (blank 8) = (inr tt, sx, [])
     ∧ _a_x sx = Some (PyFloat 50))
  ∧ (∃ sy,
       _set_anchor_y (PyStr "center") (blank 8) = (inr tt, sy, [])
       ∧ _a_y sy = Some (PyFloat 25)).
Proof.
  destruct (anchor_setters_resolve (blank 8) 100%float 50%float
              (PyStr "center")) as [(sx & Hx & _ & Hcx & _) (sy & Hy & _ & Hcy & _)];
    [reflexivity|reflexivity|].
  split; [exists sx|exists sy]; (split; [assumption|]).
  - apply (Hcx eq_refl).
  - apply (Hcy eq_refl).
Defined.

(** C9 on the blank document. *)
Lemma anchor_round_trip_witness :
  (∃ sx, (_set_anchor_x (PyStr "right") ;; _get_anchor_x) (blank 8)
         = (inr (PyStr "right"), sx, []))
  ∧ (∃ sy, (_set_anchor_y (PyStr "right") ;; _get_anchor_y) (blank 8)
           = (inr (PyStr "right"), sy, [])).
Proof.
  apply (anchor_round_trip (blank 8) 100%float 50%float (PyStr "right"));
    reflexivity.
Defined.

(** C7 on [two_paths]. *)
Lemma get_path_by_id_spec_witness :
  get_path_by_id "zz" two_paths = (inl (KeyError "zz"), two_paths, [])
  ∧ get_path_by_id "b" two_paths = (inr (mkShape "b" true false), two_paths, []).
Proof.
  destruct (get_path_by_id_spec two_paths) as (ids & Hids & Hout & Hin & _).
  vm_compute in Hids. injection Hids as <-. split.
  - apply Hout. vm_compute. intros Hzz.
    repeat (apply elem_of_cons in Hzz as [Hzz|Hzz]; [discriminate|]).
    by apply elem_of_nil in Hzz.
  - destruct (Hin "b") as (p & Hp & Hget).
    + vm_compute. apply elem_of_cons. right. apply elem_of_cons. by left.
    + vm_compute in Hp. injection Hp as <-. exact Hget.
Defined.

(** C6: evaluated on a config whose fields were set by hand,
    [super_detailed] does not return a copy of it with scaled detail: the
    result has the default subdivision counts times 10 (100 and 100, not
    500 and 240) and the default stencil and framebuffer flags; the
    receiver itself is left as it was. *)
Theorem super_detailed_is_not_a_copy :
  let c := {| stencil_bits := 8;
              has_framebuffer_objects := false;
              allow_stencil := false;
              bezier_points := 50;
              circle_points := 24;
              tolerance := 0.5%float |} in
  fst (super_detailed c 8) = c
  ∧ bezier_points (snd (super_detailed c 8)) = 100
  ∧ bezier_points c * 10 = 500
  ∧ circle_points (snd (super_detailed c 8)) = 100
  ∧ circle_points c * 10 = 240
  ∧ allow_stencil (snd (super_detailed c 8)) = true
  ∧ has_framebuffer_objects (snd (super_detailed c 8)) = true.
Proof. repeat split. Qed.
End SampleFacts.

(** * Further properties *)

(** ** The cycle of stencil masks *)

Section StencilCycle.
Context `{Shapes}.

Lemma stencil_clears_app (t1 t2 : list Event) :
  stencil_clears (t1 ++ t2) = (stencil_clears t1 + stencil_clears t2)%nat.
Proof. unfold stencil_clears. by rewrite filter_app, length_app. Qed.

(** Every call returns the new value of the counter and changes nothing
    else on the object. *)
Lemma next_stencil_mask_cases (self : SVG) :
  (_next_stencil_mask self
   = (inr (_stencil_mask self + 1),
      assign_stencil_mask (_stencil_mask self + 1) self, []))
  ∨ (_next_stencil_mask self
     = (inr 1, assign_stencil_mask 1 self,
        [EvGL (glStencilMask 255); EvGL (glClear GL_STENCIL_BUFFER_BIT)])).
Proof.
  destruct (decide (_stencil_mask self + 1
                    ≤ 2 ^ stencil_bits (config self) - 1)) as [Hle|Hgt].
  - left. by apply next_stencil_mask_below.
  - right. apply next_stencil_mask_wrap. lia_pow.
Qed.

(** X1: in a run of calls of [_next_stencil_mask] during which the
    stencil buffer is never cleared, the masks handed out are consecutive
    integers starting one above the counter, hence pairwise distinct: an
    id is reused only after a clear. *)
Theorem masks_distinct_between_clears (n : nat) : ∀ (self self' : SVG) ms tr,
  issue_masks n self = (inr ms, self', tr) →
  stencil_clears tr = 0%nat →
  ms = seqZ (_stencil_mask self + 1) (Z.of_nat n) ∧ NoDup ms.
Proof.
  assert (Hseq : ∀ (self self' : SVG) ms tr,
            issue_masks n self = (inr ms, self', tr) →
            stencil_clears tr = 0%nat →
            ms = seqZ (_stencil_mask self + 1) (Z.of_nat n)).
  { induction n as [|n IH]; intros self self' ms tr Hrun Hclr.
    - cbv in Hrun. by simplify_eq.
    - rewrite issue_masks_S in Hrun.
      destruct (next_stencil_mask_cases self) as [Hstep|Hstep];
        rewrite Hstep in Hrun;
        (destruct (issue_masks n _) as [[[ex|ms'] s2] t2] eqn:Hrest;
         [done|]); injection Hrun as <- <- <-.
      + apply IH in Hrest; [|done]. simpl in Hrest.
        rewrite (seqZ_cons (_stencil_mask self + 1)) by lia.
        replace (Z.succ (_stencil_mask self + 1))
          with (_stencil_mask self + 1 + 1) by lia.
        replace (Z.pred (Z.of_nat (S n))) with (Z.of_nat n) by lia.
        by rewrite Hrest.
      + change (stencil_clears
                  ([EvGL (glStencilMask 255);
                    EvGL (glClear GL_STENCIL_BUFFER_BIT)] ++ t2) = 0%nat)
          in Hclr.
        rewrite stencil_clears_app in Hclr. cbn in Hclr. discriminate. }
  intros self self' ms tr Hrun Hclr.
  rewrite (Hseq _ _ _ _ Hrun Hclr). split; [done|apply NoDup_seqZ].
Qed.

(** X2: the allocation is periodic.  From any counter [m] within
    [[1, 2^b - 1]], the next [2^b - 1] calls hand out [m + 1, ..., 2^b - 1]
    and then [1, ..., m], every id exactly once, clear the buffer exactly
    once and bring the counter back to [m]. *)
Theorem masks_cycle (self : SVG) (b m : Z) :
  stencil_bits (config self) = b →
  0 < b →
  _stencil_mask self = m →
  1 ≤ m ≤ 2 ^ b - 1 →
  ∃ self' tr,
    issue_masks (Z.to_nat (2 ^ b - 1)) self
    = (inr (seqZ (m + 1) (2 ^ b - 1 - m) ++ seqZ 1 m), self', tr)
    ∧ _stencil_mask self' = m
    ∧ stencil_clears tr = 1%nat
    ∧ seqZ (m + 1) (2 ^ b - 1 - m) ++ seqZ 1 m ≡ₚ seqZ 1 (2 ^ b - 1).
Proof.
  intros Hb Hpos Hm Hrange.
  destruct (issue_masks_below (Z.to_nat (2 ^ b - 1 - m)) self)
    as (s1 & Hrun1 & Hmask1 & Hcfg1).
  { rewrite Hm, Hb. lia. }
  rewrite Hm, Z2Nat.id in Hrun1, Hmask1 by lia.
  assert (Hwrap : issue_masks 1 s1
                  = (inr [1], assign_stencil_mask 1 s1,
                     [EvGL (glStencilMask 255);
                      EvGL (glClear GL_STENCIL_BUFFER_BIT)])).
  { rewrite issue_masks_S, next_stencil_mask_wrap; [done|].
    rewrite Hcfg1, Hb, Hmask1. lia. }
  destruct (issue_masks_below (Z.to_nat (m - 1)) (assign_stencil_mask 1 s1))
    as (s2 & Hrun2 & Hmask2 & Hcfg2).
  { simpl. rewrite Hcfg1, Hb. lia. }
  simpl in Hrun2, Hmask2. rewrite Z2Nat.id in Hrun2, Hmask2 by lia.
  pose proof (issue_masks_app _ _ _ _ _ _ _ _ _ Hwrap Hrun2) as Htail.
  pose proof (issue_masks_app _ _ _ _ _ _ _ _ _ Hrun1 Htail) as Hall.
  replace (Z.to_nat (2 ^ b - 1 - m) + (1 + Z.to_nat (m - 1)))%nat
    with (Z.to_nat (2 ^ b - 1)) in Hall by lia.
  exists s2, ([] ++ [EvGL (glStencilMask 255);
                     EvGL (glClear GL_STENCIL_BUFFER_BIT)] ++ []).
  split; [|split; [lia|split; [done|]]].
  - rewrite Hall. do 3 f_equal.
    change ([1] ++ seqZ (1 + 1) (m - 1)) with (1 :: seqZ (1 + 1) (m - 1)).
    rewrite (seqZ_cons 1 m) by lia. do 2 f_equal; lia.
  - rewrite Permutation_app_comm.
    replace (2 ^ b - 1) with (m + (2 ^ b - 1 - m)) at 2 by lia.
    rewrite seqZ_app by lia. by rewrite (Z.add_comm 1 m).
Qed.
End StencilCycle.

(** ** More on strings *)

Lemma string_app_assoc (a b c : string) : (a +:+ b) +:+ c = a +:+ (b +:+ c).
Proof.
  induction a as [|x a IH]; [done|].
  change (String x ((a +:+ b) +:+ c) = String x (a +:+ (b +:+ c))).
  by rewrite IH.
Qed.

Lemma string_app_nil_r (a : string) : a +:+ "" = a.
Proof.
  induction a as [|x a IH]; [done|].
  change (String x (a +:+ "") = String x a). by rewrite IH.
Qed.

Lemma string_rev_app_acc (s acc : string) :
  String.rev_app s acc = String.rev s +:+ acc.
Proof.
  unfold String.rev. revert acc.
  induction s as [|x s IH]; intros acc; [done|]. simpl.
  rewrite (IH (String x acc)), (IH (String x "")).
  by rewrite string_app_assoc.
Qed.

Lemma string_rev_app (a b : string) :
  String.rev (a +:+ b) = String.rev b +:+ String.rev a.
Proof.
  induction a as [|x a IH]; simpl.
  - by rewrite string_app_nil_r.
  - unfold String.rev in *. simpl.
    rewrite (string_rev_app_acc (a +:+ b)), (string_rev_app_acc a).
    unfold String.rev. by rewrite IH, string_app_assoc.
Qed.

Lemma string_rev_involutive (s : string) : String.rev (String.rev s) = s.
Proof.
  induction s as [|x s IH]; [done|].
  unfold String.rev at 2. simpl. rewrite string_rev_app_acc.
  by rewrite string_rev_app, IH.
Qed.

Lemma string_prefix_cons (x y : ascii) (p s : string) :
  String.prefix (String x p) (String y s)
  = if Ascii.ascii_dec x y then String.prefix p s else false.
Proof. reflexivity. Qed.

Lemma string_prefix_app (p s : string) :
  String.prefix p s = true ↔ ∃ r, s = p +:+ r.
Proof.
  revert s. induction p as [|x p IH]; intros s.
  - split; [intros _; exists s; reflexivity|intros _; by destruct s].
  - destruct s as [|y s].
    { split; [done|intros (r & Hr); discriminate Hr]. }
    rewrite string_prefix_cons.
    destruct (Ascii.ascii_dec x y) as [->|Hne].
    + rewrite IH. split; intros (r & Hr); exists r.
      * by rewrite Hr.
      * by injection Hr.
    + split; [done|]. intros (r & Hr). by injection Hr.
Qed.

(** [s.endswith(suffix)] holds exactly when [s] is some string followed
    by [suffix]. *)
Lemma str_endswith_app (s suffix : string) :
  str_endswith s suffix = true ↔ ∃ p, s = p +:+ suffix.
Proof.
  unfold str_endswith. rewrite string_prefix_app. split.
  - intros (r & Hr). exists (String.rev r).
    rewrite <- (string_rev_involutive s), Hr, string_rev_app.
    by rewrite string_rev_involutive.
  - intros (p & ->). exists (String.rev p). apply string_rev_app.
Qed.

(** Replacing a substring that does not occur changes nothing. *)
Lemma str_replace_absent (old new s : string) :
  str_contains old s = false → str_replace old new s = s.
Proof.
  unfold str_replace. induction s as [|c s IH]; [done|].
  cbn [str_contains str_replace_from]. intros Hno.
  apply orb_false_elim in Hno as [Hpre Hrest].
  rewrite Hpre. by rewrite IH.
Qed.

(** ** Frames *)

Section Frames.
Context `{Shapes}.

Lemma kept_ret {A B} (f : SVG → B) (a : A) : keeps f (mret a).
Proof. intros s r s' t Hrun. cbv in Hrun. by simplify_eq. Qed.

Lemma kept_bind {A B C} (f : SVG → C) (m : M A) (k : A → M B) :
  keeps f m → (∀ a, keeps f (k a)) → keeps f (m ≫= k).
Proof.
  intros Hm Hk s r s' t. rewrite bind_run.
  destruct (m s) as [[[ex|a] s1] t1] eqn:Hrun.
  - intros; simplify_eq. by eapply Hm.
  - destruct (k a s1) as [[r2 s2] t2] eqn:Hrun2. intros; simplify_eq.
    rewrite (Hk _ _ _ _ _ Hrun2). by eapply Hm.
Qed.

Lemma kept_modify {B} (f : SVG → B) (g : SVG → SVG) :
  (∀ s, f (g s) = f s) → keeps f (modify g).
Proof. intros Hg s r s' t Hrun. cbv [modify] in Hrun. simplify_eq. apply Hg. Qed.

Lemma kept_pure {A B} (f : SVG → B) (m : M A) :
  (∀ s, ∃ r t, m s = (r, s, t)) → keeps f m.
Proof.
  intros Hm s r s' t Hrun. destruct (Hm s) as (r' & t' & Heq).
  rewrite Heq in Hrun. by simplify_eq.
Qed.

Lemma kept_try_except {A B} (f : SVG → B) (body : M A) (handler : exn → M A) :
  keeps f body → (∀ ex, keeps f (handler ex)) →
  keeps f (try_except body handler).
Proof.
  intros Hb Hh s r s' t. unfold try_except.
  destruct (body s) as [[[ex|a] s1] t1] eqn:Hrun.
  - destruct (handler ex s1) as [[r2 s2] t2] eqn:Hrun2. intros; simplify_eq.
    rewrite (Hh _ _ _ _ _ Hrun2). by eapply Hb.
  - intros; simplify_eq. by eapply Hb.
Qed.

Lemma kept_for {A B} (f : SVG → B) (l : list A) (body : A → M unit) :
  Forall (λ x, keeps f (body x)) l → keeps f (for_ l body).
Proof.
  induction 1 as [|x l Hx _ IH]; [apply kept_ret|].
  rewrite for_cons. apply kept_bind; [done|]. by intros [].
Qed.
End Frames.

(** ** More on parsing *)

Section ParseMore.
Context `{Shapes} `{ParserUtils} `{!Builders}.

(** [_parse_element] is: build the scope, handle the element itself, then
    parse the children under that scope. *)
Lemma parse_element_split (e : Element) (parent : option SvgElementScope) :
  _parse_element e parent
  = (scope ← lift (SvgElementScope_new e parent) ;
     register_element e scope ;;
     for_ (children e) (guarded_parse (Some scope))).
Proof. destruct e. reflexivity. Qed.

Lemma register_element_keeps {B} (f : SVG → B) (e : Element)
    (scope : SvgElementScope) :
  apart_from_registration f → builders_keep f →
  keeps f (register_element e scope).
Proof.
  intros Hf (Hpath & Hlin & Hrad & Hpat). unfold register_element, _warn.
  repeat case_match;
    repeat (first [ apply kept_ret
                  | apply kept_bind; [|intros ?]
                  | apply kept_modify; intros s0; apply (Hf s0)
                  | done
                  | apply kept_pure; intros ?; by eexists _, _ ]).
Qed.

Lemma parse_element_keeps {B} (f : SVG → B) :
  apart_from_registration f → builders_keep f →
  ∀ e parent, keeps f (_parse_element e parent).
Proof.
  intros Hf Hb.
  induction e as [t a cs IH] using Element_nested_ind. intros parent.
  rewrite parse_element_split.
  apply kept_bind; [apply kept_pure; intros s; by eexists _, _|].
  intros scope. apply kept_bind; [by apply register_element_keeps|].
  intros _. apply kept_for. simpl.
  eapply Forall_impl; [exact IH|]. intros c Hc.
  apply kept_try_except; [apply Hc|].
  intros ex. apply kept_pure. intros s. by eexists _, _.
Qed.

(** [_parse_doc] assigns [_paths], [width], [height] and [opacity], and
    its elements assign the four tables; anything else is as before. *)
Lemma parse_doc_frame {B} (f : SVG → B) (root : Element) :
  apart_from_parsing f → builders_keep f → keeps f (_parse_doc root).
Proof.
  intros [Hreg Hdims] Hb s r s' t.
  assert (Hloop : keeps f (for_ (children root) (guarded_parse None))).
  { apply kept_for, Forall_forall. intros c _.
    apply kept_try_except; [by apply parse_element_keeps|].
    intros ex. apply kept_pure. intros s0. by eexists _, _. }
  assert (Hpaths : ∀ s0, f (assign_paths [] s0) = f s0)
    by (intros s0; apply (Hreg s0)).
  assert (Hw : ∀ v s0, f (assign_width v s0) = f s0)
    by (intros v s0; apply (Hdims s0)).
  assert (Hh : ∀ v s0, f (assign_height v s0) = f s0)
    by (intros v s0; apply (Hdims s0)).
  assert (Ho : ∀ v s0, f (assign_opacity v s0) = f s0)
    by (intros v s0; apply (Hdims s0)).
  rewrite parse_doc_unfold.
  destruct (parse_float (dimension_text root "width")) as [ex|w0].
  { intros; simplify_eq. apply Hpaths. }
  destruct (parse_float (dimension_text root "height")) as [ex|h0].
  { intros; simplify_eq. by rewrite Hw, Hpaths. }
  cbv zeta.
  destruct (Element_get root "viewBox") as [vb|];
    [destruct (str_truthy vb);
     [destruct (parse_list vb) as [ex|items];
      [intros; simplify_eq; by rewrite Hh, Hw, Hpaths|];
      destruct (unpack4_floats items) as [ex|[[[x y] w] h]];
      [intros; simplify_eq; by rewrite Hh, Hw, Hpaths|]|]|];
    intros Hrun; rewrite (Hloop _ _ _ _ Hrun);
    by rewrite ?Ho, ?Hw, ?Hh, ?Hw, ?Hh, ?Hpaths.
Qed.
(** X3: [_parse_doc] assigns nothing but [_paths], the lookup, gradient
    and pattern tables, [width], [height] and [opacity]: whatever else
    one reads off the object (the config, the stencil counter, the file
    name, the anchors and their offsets) is the same after the call as
    before, whether it returned or raised, as long as the constructors of
    the other modules leave it alone. *)
Theorem parse_doc_touches_only_its_attributes {B} (f : SVG → B)
    (root : Element) (s s' : SVG) r t :
  apart_from_parsing f →
  builders_keep f →
  _parse_doc root s = (r, s', t) →
  f s' = f s.
Proof. intros Hf Hb. by apply parse_doc_frame. Qed.
End ParseMore.

(** ** Edge cases of parsing *)

Section ParseEdges.
Context `{Shapes} `{ParserUtils} `{!Builders}.

Lemma dimension_text_absent (root : Element) (key : string) :
  Element_get root key = None → dimension_text root key = "0".
Proof.
  unfold dimension_text, Element_get, Element_get_default. by intros ->.
Qed.

(** X5: the text that [_parse_doc] hands to [parse_float] for a
    dimension is the attribute with every [cm] replaced by [0]; the test
    ['cm' in wm] changes nothing, since replacing leaves a string without
    [cm] as it is.  An absent attribute reads as ["0"]. *)
Theorem dimension_text_is_replace (root : Element) (key : string) :
  dimension_text root key
  = str_replace "cm" "0" (Element_get_default root key "0")
  ∧ (Element_get root key = None → dimension_text root key = "0")
  ∧ (str_contains "cm" (Element_get_default root key "0") = false →
     dimension_text root key = Element_get_default root key "0").
Proof.
  unfold dimension_text. split; [|split].
  - destruct (str_contains "cm" _) eqn:Hcm; [done|].
    by rewrite str_replace_absent.
  - apply dimension_text_absent.
  - by intros ->.
Qed.

(** Unpacking anything but four items fails with [ValueError], when
    [parse_float] accepts the items. *)
Lemma unpack4_wrong_arity (items : list string) :
  length items ≠ 4%nat →
  Forall (λ i, ∃ x, parse_float i = inr x) items →
  ∃ msg, unpack4_floats items = inl (ValueError msg).
Proof.
  intros Hlen Hall.
  destruct items as [|a [|b [|c [|d [|e rest]]]]]; try done;
    unfold unpack4_floats;
    repeat match goal with
           | Hf : Forall _ (_ :: _) |- _ =>
               apply Forall_cons in Hf as [[? ->] Hf]
           end;
    by eexists.
Qed.

(** X6: a non-empty [viewBox] whose items are numbers but not four of
    them aborts the load with [ValueError]: no element has been parsed,
    [_paths] is empty, and [width] and [height] still hold what the
    literal attributes gave. *)
Theorem viewBox_wrong_arity_aborts (root : Element) (s : SVG)
    (vb : string) (items : list string) (w0 h0 : float) :
  Element_get root "viewBox" = Some vb →
  str_truthy vb = true →
  parse_list vb = inr items →
  length items ≠ 4%nat →
  Forall (λ i, ∃ x, parse_float i = inr x) items →
  parse_float (dimension_text root "width") = inr w0 →
  parse_float (dimension_text root "height") = inr h0 →
  ∃ msg,
    _parse_doc root s
    = (inl (ValueError msg),
       assign_height h0 (assign_width w0 (assign_paths [] s)), []).
Proof.
  intros Hvb Htruthy Hlist Hlen Hall Hw Hh.
  destruct (unpack4_wrong_arity items Hlen Hall) as [msg Hmsg].
  exists msg. by rewrite parse_doc_unfold, Hw, Hh, Hvb, Htruthy, Hlist, Hmsg.
Qed.

(** X7: a root without [width] and [height] and without a (non-empty)
    [viewBox] gets the number that [parse_float] reads from ["0"] for both
    dimensions, an empty [_paths] and opacity 1 before its children are
    parsed. *)
Theorem parse_doc_defaults (root : Element) (s : SVG) (zero : float) :
  Element_get root "width" = None →
  Element_get root "height" = None →
  (Element_get root "viewBox" = None ∨ Element_get root "viewBox" = Some "") →
  parse_float "0" = inr zero →
  _parse_doc root s
  = for_ (children root) (guarded_parse None)
      (assign_opacity 1
         (assign_height zero (assign_width zero (assign_paths [] s)))).
Proof.
  intros Hw Hh Hvb Hzero. rewrite parse_doc_unfold.
  rewrite (dimension_text_absent _ _ Hw), (dimension_text_absent _ _ Hh).
  rewrite Hzero. by destruct Hvb as [-> | ->].
Qed.

(** X8: parsing a childless shape element whose constructor returns
    [path] appends [path] to [_paths], puts it in the lookup table under
    the id of its scope (over whatever was there), and [get_path_by_id]
    of that id then returns it. *)
Theorem path_element_is_registered (e : Element)
    (parent : option SvgElementScope) (scope : SvgElementScope)
    (path : SVGPath) (s s1 : SVG) (t1 : list Event) :
  _is_path_tag e = true →
  SvgElementScope_new e parent = inr scope →
  SVGPath_new scope e s = (inr path, s1, t1) →
  children e = [] →
  ∃ s2,
    _parse_element e parent s = (inr tt, s2, t1)
    ∧ _paths s2 = _paths s1 ++ [path]
    ∧ path_lookup s2 = <[path_id scope := path]> (path_lookup s1)
    ∧ get_path_by_id (path_id scope) s2 = (inr path, s2, []).
Proof.
  intros Htag Hscope Hpath Hcs.
  exists (assign_path_lookup (<[path_id scope := path]> (path_lookup s1))
            (assign_paths (_paths s1 ++ [path]) s1)).
  split; [|split; [done|split; [done|]]].
  - rewrite parse_element_split, Hcs. unfold register_element.
    rewrite Htag, Hscope. unfold lift. rewrite !bind_run, Hpath.
    unfold mbind, M_bind, modify. cbn. by rewrite !app_nil_r.
  - unfold get_path_by_id, mbind, M_bind, get_self. simpl.
    by rewrite lookup_insert_eq.
Qed.

(** X9: elements that are no shapes contribute nothing.  A childless
    [text] element only prints the warning [Text tag not supported] with
    the file name; a childless element that is no shape, text, gradient
    or pattern (a group, say) prints nothing; both leave the document as
    it was. *)
Theorem unsupported_element_registers_nothing (e : Element)
    (parent : option SvgElementScope) (scope : SvgElementScope) (s : SVG) :
  _is_path_tag e = false →
  SvgElementScope_new e parent = inr scope →
  children e = [] →
  (str_endswith (tag e) "text" = true →
   _parse_element e parent s
   = (inr tt, s,
      [EvPrint ("Warning: SVG Parser (" +:+ filename s
                +:+ ") - Text tag not supported") None]))
  ∧ (str_endswith (tag e) "text" = false →
     str_endswith (tag e) "linearGradient" = false →
     str_endswith (tag e) "radialGradient" = false →
     str_endswith (tag e) "pattern" = false →
     _parse_element e parent s = (inr tt, s, [])).
Proof.
  intros Htag Hscope Hcs.
  split; [intros Htext|intros Htext Hlin Hrad Hpat];
    rewrite parse_element_split, Hcs; unfold register_element;
    rewrite Htag, Hscope, Htext, ?Hlin, ?Hrad, ?Hpat; reflexivity.
Qed.

(** X10: [_is_path_tag] looks at the end of the tag only: an element is
    a shape exactly when its tag is any string, a namespace for one,
    followed by one of [path], [rect], [polygon], [line], [circle] and
    [ellipse].  The test for [polyline] adds nothing to the one for
    [line]. *)
Theorem is_path_tag_by_suffix (e : Element) :
  _is_path_tag e = true
  ↔ ∃ ns kind,
      tag e = ns +:+ kind
      ∧ kind ∈ ["path"; "rect"; "polygon"; "line"; "circle"; "ellipse"].
Proof.
  unfold _is_path_tag. rewrite !orb_true_iff, !str_endswith_app. split.
  - intros [[[[[[(p & Hp)|(p & Hp)]|(p & Hp)]|(p & Hp)]|(p & Hp)]|(p & Hp)]|(p & Hp)].
    + exists p, "path". split; [done|]. repeat constructor.
    + exists p, "rect". split; [done|]. repeat constructor.
    + exists (p +:+ "poly"), "line". split; [|repeat constructor].
      by rewrite Hp, string_app_assoc.
    + exists p, "polygon". split; [done|]. repeat constructor.
    + exists p, "line". split; [done|]. repeat constructor.
    + exists p, "circle". split; [done|]. repeat constructor.
    + exists p, "ellipse". split; [done|]. repeat constructor.
  - intros (ns & kind & Htag & Hkind).
    repeat (apply elem_of_cons in Hkind as [->|Hkind]);
      [| | | | | |by apply elem_of_nil in Hkind]; eauto 10.
Qed.

(** X11: an exception raised while a child of an element is parsed is
    logged once per enclosing level on its way up: the handler of the
    inner loop prints the line for the child, the handler around the
    element prints it for the element, and the exception is raised again
    each time. *)
Theorem nested_exception_logged_per_level (e bad : Element)
    (parent : option SvgElementScope) (scope : SvgElementScope)
    (pre post : list Element) (s s0 s1 s2 : SVG) (t0 t1 t2 : list Event)
    (ex : exn) :
  SvgElementScope_new e parent = inr scope →
  register_element e scope s = (inr tt, s0, t0) →
  children e = pre ++ bad :: post →
  for_ pre (guarded_parse (Some scope)) s0 = (inr tt, s1, t1) →
  _parse_element bad (Some scope) s1 = (inl ex, s2, t2) →
  guarded_parse parent e s
  = (inl ex, s2,
     t0 ++ t1 ++ t2
     ++ [EvPrint "Exception while parsing element" (Some bad);
         EvPrint "Exception while parsing element" (Some e)]).
Proof.
  intros Hscope Hown Hcs Hpre Hbad.
  apply guarded_parse_raise in Hbad.
  pose proof (for_raise _ _ post _ _ _ _ _ _ _ Hpre Hbad) as Hloop.
  assert (Hrun : _parse_element e parent s
                 = (inl ex, s2,
                    t0 ++ t1 ++ t2
                    ++ [EvPrint "Exception while parsing element" (Some bad)])).
  { rewrite parse_element_split, Hcs, Hscope. unfold lift.
    rewrite !bind_run, Hown, Hloop. done. }
  rewrite (guarded_parse_raise _ _ _ _ _ _ Hrun).
  by rewrite <- !app_assoc.
Qed.
End ParseEdges.

(** ** Patterns *)

Section PatternFacts.
Context `{Shapes}.

Lemma rendered_patterns_app (t1 t2 : list Event) :
  rendered_patterns (t1 ++ t2) = rendered_patterns t1 ++ rendered_patterns t2.
Proof. apply omap_app. Qed.

Lemma rendered_patterns_renders (pats : list Pattern) :
  rendered_patterns (EvPatternRender <$> pats) = pats.
Proof.
  induction pats as [|p pats IH]; [done|]. rewrite fmap_cons.
  change (rendered_patterns (EvPatternRender p :: (EvPatternRender <$> pats)))
    with (p :: rendered_patterns (EvPatternRender <$> pats)).
  by rewrite IH.
Qed.

Lemma prerender_patterns_trace (s : SVG) :
  prerender_patterns s
  = (inr tt, s,
     ([EvGL (glEnable GL_BLEND);
       EvGL (glBlendFunc GL_SRC_ALPHA GL_ONE_MINUS_SRC_ALPHA)]
      ++ (if allow_stencil (config s)
          then [EvGL (glStencilMask 255);
                EvGL (glClear GL_STENCIL_BUFFER_BIT)]
          else []))
     ++ (EvPatternRender <$> (map_to_list (patterns s)).*2)).
Proof.
  unfold prerender_patterns.
  unfold mbind, M_bind, gl, emit, is_stencil_enabled, gets.
  destruct (allow_stencil (config s)); cbn -[for_ map_to_list];
    by rewrite pattern_loop.
Qed.

(** X4: [prerender_patterns] calls [render] once for every id of the
    pattern table, on the pattern stored under it: as many calls as the
    table has entries, and a pattern is rendered exactly when some id
    holds it. *)
Theorem prerender_renders_each_pattern_once (s : SVG) :
  ∃ s' tr,
    prerender_patterns s = (inr tt, s', tr)
    ∧ rendered_patterns tr = (map_to_list (patterns s)).*2
    ∧ length (rendered_patterns tr) = size (patterns s)
    ∧ ∀ p, p ∈ rendered_patterns tr ↔ ∃ id, patterns s !! id = Some p.
Proof.
  eexists _, _. split; [apply prerender_patterns_trace|].
  assert (Hpats : rendered_patterns
            (([EvGL (glEnable GL_BLEND);
               EvGL (glBlendFunc GL_SRC_ALPHA GL_ONE_MINUS_SRC_ALPHA)]
              ++ (if allow_stencil (config s)
                  then [EvGL (glStencilMask 255);
                        EvGL (glClear GL_STENCIL_BUFFER_BIT)]
                  else []))
             ++ (EvPatternRender <$> (map_to_list (patterns s)).*2))
          = (map_to_list (patterns s)).*2).
  { rewrite rendered_patterns_app, rendered_patterns_renders.
    by destruct (allow_stencil (config s)). }
  rewrite Hpats. split; [done|]. split.
  - by rewrite length_fmap, length_map_to_list.
  - intros p. rewrite list_elem_of_fmap. split.
    + intros ([k q] & -> & Hin). exists k. by apply elem_of_map_to_list.
    + intros (k & Hk). exists (k, p). split; [done|].
      by apply elem_of_map_to_list.
Qed.
End PatternFacts.

(** ** Drawing *)

Section DrawFacts.
Context `{Shapes}.

(** With the two offsets unset, [draw] fails on the first one. *)
Lemma draw_without_offsets (self : SVG) (x y z angle : pynum)
    (scale : scale_arg) :
  _a_x self = None →
  ∃ calls,
    draw self x y z angle scale = (inl (DrawAttributeError "_a_x"), calls)
    ∧ CallDisplayList ∉ calls.
Proof.
  intros Hax. unfold draw, draw_getattr. rewrite Hax.
  destruct (py_truthy (num_val angle)), scale as [[n|f]|sx sy];
    cbn; try destruct (negb _); cbn;
    (eexists; split; [reflexivity|]);
    intros Hin; repeat (apply elem_of_cons in Hin as [Hin|Hin]; [done|]);
    by apply elem_of_nil in Hin.
Qed.

(** X14: with both anchor offsets falsy (0, 0.0 or the empty string), an
    angle of zero and a scale of 1, [draw] issues a single [glTranslatef]
    before it replays the display list: no rotation, no scaling and no
    anchor translation. *)
Theorem draw_identity_arguments (self : SVG) (x y z angle : pynum)
    (scale : scale_arg) (ax ay : pyval) :
  _a_x self = Some ax →
  _a_y self = Some ay →
  py_truthy ax = false →
  py_truthy ay = false →
  py_truthy (num_val angle) = false →
  scale_is_not_1 scale = false →
  draw self x y z angle scale
  = (inr tt,
     [EnterTransform; glTranslatef (num_val x) (num_val y) (num_val z);
      CallDisplayList; ExitTransform]).
Proof.
  intros Hax Hay Htx Hty Hangle Hscale.
  unfold draw, draw_getattr. rewrite Hangle, Hscale, Hax, Hay.
  cbn -[py_truthy]. rewrite Htx. cbn -[py_truthy]. by rewrite Hty.
Qed.

(** X16: a scale given as a number other than 1 draws exactly as the
    pair of that number twice: indexing the number raises [TypeError],
    and the handler scales both axes by it. *)
Theorem draw_scale_number_as_pair (self : SVG) (x y z angle n : pynum) :
  scale_is_not_1 (ScaleNum n) = true →
  draw self x y z angle (ScaleNum n) = draw self x y z angle (ScalePair n n).
Proof.
  intros Hne. unfold draw. rewrite Hne. by destruct n.
Qed.

(** A string that is no keyword stays in the offset, and [draw] cannot
    negate it. *)
Lemma draw_string_offset_x (self : SVG) (kw : string) (x y z angle : pynum)
    (scale : scale_arg) :
  _a_x self = Some (PyStr kw) →
  str_truthy kw = true →
  ∃ msg calls,
    draw self x y z angle scale = (inl (DrawTypeError msg), calls)
    ∧ CallDisplayList ∉ calls.
Proof.
  intros Hax Hkw. destruct kw as [|c kw]; [done|].
  unfold draw, draw_getattr. rewrite Hax.
  destruct (py_truthy (num_val angle)), scale as [[n|f]|sx sy];
    cbn; try destruct (negb _); cbn;
    (eexists _, _; split; [reflexivity|]);
    intros Hin; repeat (apply elem_of_cons in Hin as [Hin|Hin]; [done|]);
    by apply elem_of_nil in Hin.
Qed.

(** X15: the anchor setter validates nothing.  A non-empty string that
    is none of the keywords is stored as the offset without complaint,
    and every later [draw] fails with [TypeError] when it negates the
    offset, before the display list is replayed. *)
Theorem misspelt_anchor_fails_at_draw (s : SVG) (kw : string) :
  kw ≠ "left" → kw ≠ "center" → kw ≠ "right" → kw ≠ "" →
  ∃ sx,
    _set_anchor_x (PyStr kw) s = (inr tt, sx, [])
    ∧ _a_x sx = Some (PyStr kw)
    ∧ ∀ x y z angle scale,
        ∃ msg calls,
          draw sx x y z angle scale = (inl (DrawTypeError msg), calls)
          ∧ CallDisplayList ∉ calls.
Proof.
  intros Hl Hc Hr Hne.
  assert (Hrun : _set_anchor_x (PyStr kw) s
                 = (inr tt, assign_a_x (PyStr kw) (assign_anchor_x (PyStr kw) s),
                    [])).
  { unfold _set_anchor_x, mbind, M_bind, modify, getattr. simpl.
    rewrite (proj2 (String.eqb_neq kw "left") Hl).
    rewrite (proj2 (String.eqb_neq kw "center") Hc).
    by rewrite (proj2 (String.eqb_neq kw "right") Hr). }
  eexists. split; [exact Hrun|]. split; [done|].
  intros x y z angle scale. apply (draw_string_offset_x _ kw); [done|].
  by destruct kw.
Qed.
End DrawFacts.

Section AnchorMore.
Context `{Shapes}.

(** X17: on a loaded document the two anchor setters commute: assigning
    [anchor_x] then [anchor_y] leaves the same object as the other
    order. *)
Theorem anchor_setters_commute (s : SVG) (w h : float) (u v : pyval) :
  width s = Some w →
  height s = Some h →
  (_set_anchor_x u ;; _set_anchor_y v) s
  = (_set_anchor_y v ;; _set_anchor_x u) s.
Proof.
  intros Hw Hh. rewrite !bind_run.
  rewrite (set_anchor_x_run _ _ _ Hw), (set_anchor_y_run _ _ _ Hh).
  rewrite (set_anchor_y_run _ h), (set_anchor_x_run _ w) by done.
  reflexivity.
Qed.
End AnchorMore.

Section InitFacts.
Context `{Shapes} `{ParserUtils} `{!Builders} `{SvgConstants}.

(** What [__init__] leaves as it set it at the start: anything that
    neither parsing nor the two anchor assignments touch. *)
Lemma SVG_init_keeps {B} (f : SVG → B) (fname : string) (ax ay : pyval)
    (cfg : option SVGConfig) (bits : Z) (root : Element) r (s : SVG) t :
  apart_from_parsing f →
  (∀ v s0, f (assign_anchor_x v s0) = f s0) →
  (∀ v s0, f (assign_anchor_y v s0) = f s0) →
  builders_keep f →
  SVG_init fname ax ay cfg bits root = (r, s, t) →
  f s
  = f {| config := match cfg with
                   | None => SVGConfig_init bits
                   | Some c => c
                   end;
         _stencil_mask := 0; path_lookup := ∅; _paths := [];
         patterns := ∅; filename := fname; _gradients := ∅;
         _anchor_x := None; _anchor_y := None; _a_x := None; _a_y := None;
         width := None; height := None; opacity := None |}.
Proof.
  intros Hf Hx Hy Hb. unfold SVG_init, _generate_disp_list.
  rewrite !bind_run.
  destruct (_parse_doc root _) as [[[ex|[]] s1] t1] eqn:Hdoc.
  { intros; simplify_eq. by rewrite (parse_doc_frame f root Hf Hb _ _ _ _ Hdoc). }
  rewrite !bind_run.
  destruct (prerender_patterns_run s1) as (tp & ->).
  destruct (render_only_emits s1) as (tr & ->).
  unfold modify. intros Hrun. cbv [mbind M_bind] in Hrun. simplify_eq.
  by rewrite Hy, Hx, (parse_doc_frame f root Hf Hb _ _ _ _ Hdoc).
Qed.
End InitFacts.

Section FreshObject.
Context `{Shapes} `{ParserUtils} `{!Builders} `{SvgConstants}.

(** X13: [__init__] stores its anchors in [_anchor_x] and [_anchor_y]
    directly, not through the properties, so [_a_x] is never assigned: on
    an object fresh from [__init__] (whose constructors of the other
    modules do not assign [_a_x] either) every [draw] raises
    [AttributeError] before the display list is replayed. *)
Theorem draw_after_init_raises (fname : string) (ax ay : pyval)
    (cfg : option SVGConfig) (bits : Z) (root : Element) (s : SVG) t :
  builders_keep _a_x →
  SVG_init fname ax ay cfg bits root = (inr tt, s, t) →
  _a_x s = None
  ∧ ∀ x y z angle scale,
      ∃ calls,
        draw s x y z angle scale = (inl (DrawAttributeError "_a_x"), calls)
        ∧ CallDisplayList ∉ calls.
Proof.
  intros Hb Hinit.
  assert (Hax : _a_x s = None).
  { by rewrite (SVG_init_keeps _a_x _ _ _ _ _ _ _ _ _
                  ltac:(by repeat split) ltac:(done) ltac:(done) Hb Hinit). }
  split; [done|]. intros x y z angle scale. by apply draw_without_offsets.
Qed.
End FreshObject.

(** ** The further properties on the sample documents *)

Module ExtraFacts.
Import Sample.

(** The sample constructors read the element and assign nothing. *)
Lemma sample_builders_keep {B} (f : SVG → B) : builders_keep f.
Proof.
  split; [|split; [|split]].
  - intros scope e. apply kept_bind; [|intros ?; apply kept_ret].
    apply kept_pure. intros s. by eexists _, _.
  - intros e. apply kept_ret.
  - intros e. apply kept_ret.
  - intros e. apply kept_ret.
Qed.

(** X1 on three calls with two stencil bits. *)
Lemma masks_distinct_between_clears_witness :
  (issue_masks 3 (blank 2)).1.1 = inr [1; 2; 3] ∧ NoDup [1; 2; 3].
Proof.
  destruct (masks_distinct_between_clears 3 (blank 2)
              (issue_masks 3 (blank 2)).1.2 [1; 2; 3] [])
    as [_ Hnd]; [reflexivity|reflexivity|].
  split; [reflexivity|exact Hnd].
Defined.

(** X2 with two stencil bits, from counter 2. *)
Lemma masks_cycle_witness :
  ∃ self' tr,
    issue_masks (Z.to_nat (2 ^ 2 - 1)) (assign_stencil_mask 2 (blank 2))
    = (inr (seqZ (2 + 1) (2 ^ 2 - 1 - 2) ++ seqZ 1 2), self', tr)
    ∧ _stencil_mask self' = 2
    ∧ stencil_clears tr = 1%nat
    ∧ seqZ (2 + 1) (2 ^ 2 - 1 - 2) ++ seqZ 1 2 ≡ₚ seqZ 1 (2 ^ 2 - 1).
Proof.
  apply (masks_cycle (assign_stencil_mask 2 (blank 2)) 2 2);
    [reflexivity|lia|reflexivity|simpl; lia].
Defined.

(** X3 on [broken_doc], reading the stencil counter. *)
Lemma parse_doc_touches_only_its_attributes_witness :
  _stencil_mask (_parse_doc broken_doc (assign_stencil_mask 5 (blank 8))).1.2
  = 5.
Proof.
  apply (parse_doc_touches_only_its_attributes _stencil_mask broken_doc
           (assign_stencil_mask 5 (blank 8))
           (_parse_doc broken_doc (assign_stencil_mask 5 (blank 8))).1.2
           (_parse_doc broken_doc (assign_stencil_mask 5 (blank 8))).1.1
           (_parse_doc broken_doc (assign_stencil_mask 5 (blank 8))).2).
  - by repeat split.
  - apply sample_builders_keep.
  - by destruct (_parse_doc broken_doc _) as [[? ?] ?].
Defined.

(** X6 on [short_viewbox_doc]. *)
Lemma viewBox_wrong_arity_aborts_witness :
  ∃ msg,
    _parse_doc short_viewbox_doc (blank 8)
    = (inl (ValueError msg),
       assign_height 50 (assign_width 100 (assign_paths [] (blank 8))), []).
Proof.
  apply (viewBox_wrong_arity_aborts short_viewbox_doc (blank 8)
           "0 0 100" ["0"; "0"; "100"]); try reflexivity.
  - simpl. lia.
  - repeat constructor; by eexists.
Defined.

(** X7 on [empty_doc]. *)
Lemma parse_doc_defaults_witness :
  _parse_doc empty_doc (blank 8)
  = for_ (children empty_doc) (guarded_parse None)
      (assign_opacity 1
         (assign_height 0 (assign_width 0 (assign_paths [] (blank 8))))).
Proof.
  apply (parse_doc_defaults empty_doc (blank 8) 0%float);
    [reflexivity|reflexivity|left; reflexivity|reflexivity].
Defined.

(** X8 on [rect_a]. *)
Lemma path_element_is_registered_witness :
  ∃ s2,
    _parse_element rect_a None (blank 8) = (inr tt, s2, [])
    ∧ _paths s2 = _paths (blank 8) ++ [mkShape "a" false false]
    ∧ path_lookup s2
      = <["a" := mkShape "a" false false]> (path_lookup (blank 8))
    ∧ get_path_by_id "a" s2 = (inr (mkShape "a" false false), s2, []).
Proof.
  apply (path_element_is_registered (H:=shapes) rect_a None "a"
           (mkShape "a" false false) (blank 8) (blank 8) []);
    reflexivity.
Defined.

(** X9 on [text_t] and [group_g]. *)
Lemma unsupported_element_registers_nothing_witness :
  _parse_element text_t None (blank 8)
  = (inr tt, blank 8,
     [EvPrint "Warning: SVG Parser (sample.svg) - Text tag not supported" None])
  ∧ _parse_element group_g None (blank 8) = (inr tt, blank 8, []).
Proof.
  split.
  - apply (unsupported_element_registers_nothing (H:=shapes) text_t None
             "t" (blank 8)); reflexivity.
  - apply (unsupported_element_registers_nothing (H:=shapes) group_g None
             "g" (blank 8)); reflexivity.
Defined.

(** X11 on [broken_group]. *)
Lemma nested_exception_logged_per_level_witness :
  guarded_parse None broken_group (blank 8)
  = (inl (ValueError "could not convert string to float"),
     (_parse_element (H:=shapes) rect_a (Some "g") (blank 8)).1.2,
     [EvPrint "Exception while parsing element" (Some bad_rect);
      EvPrint "Exception while parsing element" (Some broken_group)]).
Proof.
  apply (nested_exception_logged_per_level (H:=shapes) broken_group bad_rect
           None "g" [rect_a] [elem "circle" [("id", "c")] []]
           (blank 8) (blank 8)
           (_parse_element (H:=shapes) rect_a (Some "g") (blank 8)).1.2
           (_parse_element (H:=shapes) rect_a (Some "g") (blank 8)).1.2
           [] [] []);
    vm_compute; reflexivity.
Defined.

(** X12 on [viewbox_doc]. *)
Lemma SVG_init_loaded_witness :
  let s := (SVG_init "f.svg" (PyStr "center") (PyInt 3) None 8 viewbox_doc).1.2 in
  is_Some (width s) ∧ is_Some (height s)
  ∧ _anchor_x s = Some (PyStr "center") ∧ _anchor_y s = Some (PyInt 3).
Proof.
  apply (SVG_init_loaded "f.svg" (PyStr "center") (PyInt 3) None 8 viewbox_doc
           _ (SVG_init "f.svg" (PyStr "center") (PyInt 3) None 8 viewbox_doc).2).
  - apply SampleFacts.sample_builders_keep_dimensions.
  - vm_compute. reflexivity.
Defined.

(** X13 on the object built from [viewbox_doc]. *)
Lemma draw_after_init_raises_witness :
  let s := (SVG_init "f.svg" (PyInt 0) (PyInt 0) None 8 viewbox_doc).1.2 in
  _a_x s = None
  ∧ ∀ x y z angle scale,
      ∃ calls,
        draw s x y z angle scale = (inl (DrawAttributeError "_a_x"), calls)
        ∧ CallDisplayList ∉ calls.
Proof.
  apply (draw_after_init_raises "f.svg" (PyInt 0) (PyInt 0) None 8 viewbox_doc
           _ (SVG_init "f.svg" (PyInt 0) (PyInt 0) None 8 viewbox_doc).2).
  - apply sample_builders_keep.
  - vm_compute. reflexivity.
Defined.

(** X14 on [anchored_origin]. *)
Lemma draw_identity_arguments_witness :
  draw anchored_origin (NumInt 100) (NumInt 200) (NumInt 0) (NumFloat 0)
    (ScaleNum (NumFloat 1))
  = (inr tt,
     [EnterTransform; glTranslatef (PyInt 100) (PyInt 200) (PyInt 0);
      CallDisplayList; ExitTransform]).
Proof.
  apply (draw_identity_arguments anchored_origin (NumInt 100) (NumInt 200)
           (NumInt 0) (NumFloat 0) (ScaleNum (NumFloat 1))
           (PyFloat 0) (PyInt 0)); reflexivity.
Defined.

(** X15 with the string [middle]. *)
Lemma misspelt_anchor_fails_at_draw_witness :
  ∃ sx,
    _set_anchor_x (PyStr "middle") (blank 8) = (inr tt, sx, [])
    ∧ _a_x sx = Some (PyStr "middle")
    ∧ ∀ x y z angle scale,
        ∃ msg calls,
          draw sx x y z angle scale = (inl (DrawTypeError msg), calls)
          ∧ CallDisplayList ∉ calls.
Proof.
  apply (misspelt_anchor_fails_at_draw (blank 8) "middle"); discriminate.
Defined.

(** X16 with a scale of 2. *)
Lemma draw_scale_number_as_pair_witness :
  draw anchored_origin (NumInt 1) (NumInt 2) (NumInt 0) (NumInt 0)
    (ScaleNum (NumInt 2))
  = draw anchored_origin (NumInt 1) (NumInt 2) (NumInt 0) (NumInt 0)
      (ScalePair (NumInt 2) (NumInt 2)).
Proof.
  apply (draw_scale_number_as_pair anchored_origin (NumInt 1) (NumInt 2)
           (NumInt 0) (NumInt 0) (NumInt 2)).
  reflexivity.
Defined.

(** X17 on the blank document. *)
Lemma anchor_setters_commute_witness :
  (_set_anchor_x (PyStr "center") ;; _set_anchor_y (PyStr "top")) (blank 8)
  = (_set_anchor_y (PyStr "top") ;; _set_anchor_x (PyStr "center")) (blank 8).
Proof.
  apply (anchor_setters_commute (blank 8) 100%float 50%float); reflexivity.
Defined.
End ExtraFacts.
